(** * slack-code-agent: a Slack channel to agent-CLI bridge

    A shallow embedding of the TypeScript sources
    - [cursor.ts]  (createChat, isRetryable, sendPromptOnce, sendPrompt),
    - [store.ts]   (poll state and per-channel session files),
    - [slack.ts]   (listBotChannels, getHistory, the reactions,
                    mentionsBot, removeBotMention),
    - [index.ts]   (command handlers, processMessage, pollChannel, poll),
    followed by the properties of the retry protocol, of the polling
    cursor, of the session store and of the command handlers.

    Conventions.
    - A JavaScript string is the list of its UTF-16 code units.
    - Promises are modelled by their settlement: resolved with a value
      or rejected with an error.
    - Console logging is not part of the model. *)

From Stdlib Require Import ZArith NArith List Bool Ascii String DecimalString Lia.
From Stdlib Require Import Sorted Permutation.
From stdpp Require Import gmap.
Import ListNotations.

Set Warnings "-register-all".
Local Open Scope N_scope.

(** ** JavaScript strings *)

Module JsString.

Definition jsstring : Type := list N.

(** An ASCII literal of the source, as code units. *)
Definition lit (s : string) : jsstring :=
  map N_of_ascii (list_ascii_of_string s).

(** The code unit of the double quote character. *)
Definition dquote : N := 34.

(** ECMAScript LineTerminator: LF, CR, LS, PS. *)
Definition isLineTerminator (c : N) : bool :=
  (c =? 10) || (c =? 13) || (c =? 0x2028) || (c =? 0x2029).

(** ECMAScript WhiteSpace: TAB, VT, FF, ZWNBSP and the space separators. *)
Definition isWhiteSpace (c : N) : bool :=
  (c =? 9) || (c =? 11) || (c =? 12) || (c =? 32) || (c =? 0xA0)
  || (c =? 0x1680) || ((0x2000 <=? c) && (c <=? 0x200A))
  || (c =? 0x202F) || (c =? 0x205F) || (c =? 0x3000) || (c =? 0xFEFF).

(** What [String.prototype.trim] strips and what [\s] matches. *)
Definition isSpace (c : N) : bool := isWhiteSpace c || isLineTerminator c.

Fixpoint trimStart (s : jsstring) : jsstring :=
  match s with
  | [] => []
  | c :: s' => if isSpace c then trimStart s' else s
  end.

Fixpoint trimEnd (s : jsstring) : jsstring :=
  match s with
  | [] => []
  | c :: s' =>
      match trimEnd s' with
      | [] => if isSpace c then [] else [c]
      | t => c :: t
      end
  end.

(** [s.trim()] *)
Definition trim (s : jsstring) : jsstring := trimEnd (trimStart s).

(** Truthiness of a string: non-empty. *)
Definition nonEmpty (s : jsstring) : bool :=
  match s with [] => false | _ :: _ => true end.

(** [a || b] on strings. *)
Definition orElse (a b : jsstring) : jsstring := if nonEmpty a then a else b.

(** [s.startsWith(p)] *)
Fixpoint startsWith (p s : jsstring) : bool :=
  match p, s with
  | [], _ => true
  | _ :: _, [] => false
  | a :: p', c :: s' => (a =? c) && startsWith p' s'
  end.

(** [s.includes(p)] *)
Fixpoint includes (p s : jsstring) : bool :=
  startsWith p s || match s with [] => false | _ :: s' => includes p s' end.

(** The rest of [s] after the prefix [p], when [s] starts with [p]. *)
Fixpoint stripPrefix (p s : jsstring) : option jsstring :=
  match p, s with
  | [], _ => Some s
  | _ :: _, [] => None
  | a :: p', c :: s' => if a =? c then stripPrefix p' s' else None
  end.

(** Lower-casing of one code unit: the Basic Latin and Latin-1 letters.
    Characters above U+00FF are left as they are; the source lower-cases
    only to search for the ASCII word "error", and no character outside
    ASCII lower-cases to one of its letters. *)
Definition lowerUnit (c : N) : N :=
  if (65 <=? c) && (c <=? 90) then c + 32
  else if (0xC0 <=? c) && (c <=? 0xDE) && negb (c =? 0xD7) then c + 32
  else c.

(** [s.toLowerCase()] *)
Definition toLowerCase (s : jsstring) : jsstring := map lowerUnit s.

(** [s.substring(0, n)] *)
Definition substring0 (n : nat) (s : jsstring) : jsstring := firstn n s.

(** [s.replace(new RegExp(p, "g"), "")] for a pattern [p] without
    metacharacters: every occurrence, leftmost first, is removed. *)
Fixpoint removeAll (p s : jsstring) : jsstring :=
  match s with
  | [] => []
  | c :: s' =>
      match p with
      | [] => s
      | _ :: _ =>
          if startsWith p s
          then (fix skip (n : nat) (t : jsstring) {struct t} : jsstring :=
                  match n, t with
                  | O, _ => removeAll p t
                  | S n', _ :: t' => skip n' t'
                  | S _, [] => []
                  end) (Nat.pred (List.length p)) s'
          else c :: removeAll p s'
      end
  end.

End JsString.
Export JsString.

(** ** Regular expressions of the source

    The sources use eight regular expressions, all without the [u] and
    [m] flags.  The five retry patterns are sequences of literal
    characters and one optional wildcard, searched anywhere in the text,
    ignoring case.  The three command patterns are anchored at both ends
    and are embedded as the matchers [test_command] and [match_new]. *)

Module Regex.

(** One element of a retry pattern. *)
Inductive atom : Type :=
  | Chr (c : N)   (* a literal character *)
  | OptAny.       (* [.?] : at most one character, not a line terminator *)

(** Case folding of the [i] flag.  Without the [u] flag a character
    outside ASCII never folds to an ASCII one, so folding ASCII letters
    decides every comparison against an ASCII pattern character. *)
Definition canonicalize (c : N) : N :=
  if (97 <=? c) && (c <=? 122) then c - 32 else c.

Definition chars (s : string) : list atom := map Chr (lit s).

(** Does the pattern match at the start of [s]?  [.?] is greedy: it first
    takes a character and gives it back when the rest does not match. *)
Fixpoint match_here (p : list atom) (s : jsstring) : bool :=
  match p with
  | [] => true
  | Chr a :: p' =>
      match s with
      | c :: s' => (canonicalize a =? canonicalize c) && match_here p' s'
      | [] => false
      end
  | OptAny :: p' =>
      match s with
      | c :: s' => negb (isLineTerminator c) && match_here p' s'
      | [] => false
      end
      || match_here p' s
  end.

(** [p.test(s)] for an unanchored pattern: a match at some position. *)
Fixpoint test (p : list atom) (s : jsstring) : bool :=
  match_here p s || match s with [] => false | _ :: s' => test p s' end.

(** [/^NAME\s*$/.test(s)] : the command word followed by white space only. *)
Definition test_command (name : jsstring) (s : jsstring) : bool :=
  match stripPrefix name s with
  | Some rest => forallb isSpace rest
  | None => false
  end.

(** The tail [\s*(.+)$] of the start-session pattern, after a first
    white-space character has been matched: [\s] is tried on each further
    character before the group, and the group must reach the end of the
    text without crossing a line terminator. *)
Fixpoint new_tail (s : jsstring) : option jsstring :=
  match s with
  | [] => None
  | c :: s' =>
      match (if isSpace c then new_tail s' else None) with
      | Some g => Some g
      | None => if forallb (fun x => negb (isLineTerminator x)) s
                then Some s else None
      end
  end.

(** [s.match(/^\/new\s+(.+)$/)] : the captured group, if the text matches. *)
Definition match_new (s : jsstring) : option jsstring :=
  match stripPrefix (lit "/new") s with
  | Some (c :: rest) => if isSpace c then new_tail rest else None
  | _ => None
  end.

End Regex.

(** ** JSON values and [JSON.parse] *)

Module Json.

(** A JavaScript value as [JSON.parse] builds it, and [undefined].  A
    number is kept as its decimal literal: sign, digits and power of ten,
    standing for the double nearest to [digits * 10 ^ exp10]. *)
Inductive JsValue : Type :=
  | JUndefined
  | JNull
  | JBool (b : bool)
  | JNumber (negative : bool) (digits : N) (exp10 : Z)
  | JString (s : jsstring)
  | JArray (items : list JsValue)
  | JObject (members : list (jsstring * JsValue)).

Definition jsstring_eqb (a b : jsstring) : bool :=
  bool_decide (a = b).

(** The own property [key] of an object built by [JSON.parse]; of
    repeated member names the last one stays. *)
Fixpoint lookup_member (key : jsstring) (ms : list (jsstring * JsValue))
  : option JsValue :=
  match ms with
  | [] => None
  | (k, v) :: ms' =>
      match lookup_member key ms' with
      | Some v' => Some v'
      | None => if jsstring_eqb k key then Some v else None
      end
  end.

(** Reading [v.key] for the two property names the source reads,
    [is_error] and [result], which no built-in prototype defines: [None]
    is the TypeError of reading a property of [null] or [undefined]; a
    value without the own property gives [undefined]. *)
Definition get_field (v : JsValue) (key : jsstring) : option JsValue :=
  match v with
  | JUndefined | JNull => None
  | JObject ms =>
      Some (match lookup_member key ms with Some x => x | None => JUndefined end)
  | _ => Some JUndefined
  end.

(** A decimal literal denotes a double equal to zero when its digits are
    zero or when it is at most half the least positive double, 2^-1075
    (round to nearest, ties to even). *)
Definition number_is_zero (digits : N) (exp10 : Z) : bool :=
  (digits =? 0)
  || ((exp10 <? 0)%Z
      && (Z.of_N digits * 2 ^ 1075 <=? 10 ^ (- exp10))%Z).

(** ToBoolean *)
Definition truthy (v : JsValue) : bool :=
  match v with
  | JUndefined | JNull => false
  | JBool b => b
  | JNumber _ d e => negb (number_is_zero d e)
  | JString s => nonEmpty s
  | JArray _ | JObject _ => true
  end.


(** *** The parser

    [JSON.parse] follows the JSON grammar of ECMA-404.  The functions
    below read one construct at the head of the text and return it with
    the rest of the text.  The recursion through nested arrays and
    objects is bounded by a counter, which [JSON_parse] sets high enough
    for the whole text (see [JsonFacts.JSON_parse_fuel]). *)

Inductive Parsed (A : Type) : Type :=
  | Done (a : A) (rest : jsstring)
  | SyntaxError
  | OutOfFuel.
Arguments Done {A} a rest.
Arguments SyntaxError {A}.
Arguments OutOfFuel {A}.

(** JSON white space: space, TAB, LF, CR. *)
Definition isJsonSpace (c : N) : bool :=
  (c =? 32) || (c =? 9) || (c =? 10) || (c =? 13).

Fixpoint skip_ws (s : jsstring) : jsstring :=
  match s with
  | [] => []
  | c :: s' => if isJsonSpace c then skip_ws s' else s
  end.

Definition isDigit (c : N) : bool := (48 <=? c) && (c <=? 57).

Definition hexValue (c : N) : option N :=
  if isDigit c then Some (c - 48)
  else if (97 <=? c) && (c <=? 102) then Some (c - 87)
  else if (65 <=? c) && (c <=? 70) then Some (c - 55)
  else None.

(** The code unit of the four hex digits of a [\u] escape. *)
Definition hex4 (a b c d : N) : option N :=
  match hexValue a, hexValue b, hexValue c, hexValue d with
  | Some x, Some y, Some z, Some w => Some (((x * 16 + y) * 16 + z) * 16 + w)
  | _, _, _, _ => None
  end.

(** The character an escape letter stands for. *)
Definition escape_char (e : N) : option N :=
  if e =? 34 then Some 34          (* quote *)
  else if e =? 92 then Some 92     (* backslash *)
  else if e =? 47 then Some 47     (* slash *)
  else if e =? 98 then Some 8      (* b *)
  else if e =? 102 then Some 12    (* f *)
  else if e =? 110 then Some 10    (* n *)
  else if e =? 114 then Some 13    (* r *)
  else if e =? 116 then Some 9     (* t *)
  else None.

(** The characters of a string literal after its opening quote, up to
    the closing quote; [acc] holds the characters read, last first. *)
Fixpoint parse_chars (s : jsstring) (acc : jsstring) : Parsed jsstring :=
  match s with
  | [] => SyntaxError
  | c :: rest =>
      if c =? 34 then Done (rev acc) rest            (* closing quote *)
      else if c =? 92 then                           (* backslash *)
        match rest with
        | [] => SyntaxError
        | e :: rest1 =>
            if e =? 117 then                         (* u *)
              match rest1 with
              | h1 :: h2 :: h3 :: h4 :: rest2 =>
                  match hex4 h1 h2 h3 h4 with
                  | Some u => parse_chars rest2 (u :: acc)
                  | None => SyntaxError
                  end
              | _ => SyntaxError
              end
            else
              match escape_char e with
              | Some x => parse_chars rest1 (x :: acc)
              | None => SyntaxError
              end
        end
      else if c <? 32 then SyntaxError
      else parse_chars rest (c :: acc)
  end.

(** The longest run of decimal digits at the head of the text. *)
Fixpoint span_digits (s : jsstring) : list N * jsstring :=
  match s with
  | c :: s' =>
      if isDigit c
      then let '(ds, rest) := span_digits s' in (c - 48 :: ds, rest)
      else ([], s)
  | [] => ([], [])
  end.

Definition digits_value (ds : list N) : N :=
  fold_left (fun n d => n * 10 + d) ds 0.

(** One or more digits. *)
Definition parse_digits (s : jsstring) : Parsed (list N) :=
  match span_digits s with
  | ([], _) => SyntaxError
  | (ds, rest) => Done ds rest
  end.

(** int: a single [0], or a non-zero digit followed by digits. *)
Definition parse_int (s : jsstring) : Parsed (list N) :=
  match s with
  | c :: rest => if c =? 48 (* 0 *) then Done [0] rest else parse_digits s
  | [] => SyntaxError
  end.

(** frac: nothing, or a dot followed by digits. *)
Definition parse_frac (s : jsstring) : Parsed (list N) :=
  match s with
  | c :: s' => if c =? 46 (* . *) then parse_digits s' else Done [] s
  | [] => Done [] s
  end.

(** exp: nothing, or [e] or [E], an optional sign and digits. *)
Definition parse_exp (s : jsstring) : Parsed Z :=
  match s with
  | c :: t =>
      if (c =? 101) || (c =? 69) then                (* e, E *)
        let '(neg, t') :=
          match t with
          | sign :: u => if sign =? 43 then (false, u)          (* + *)
                         else if sign =? 45 then (true, u)      (* - *)
                         else (false, t)
          | [] => (false, t)
          end in
        match parse_digits t' with
        | Done ds rest =>
            let v := Z.of_N (digits_value ds) in
            Done (if neg then (- v)%Z else v) rest
        | _ => SyntaxError
        end
      else Done 0%Z s
  | [] => Done 0%Z s
  end.

(** number: an optional minus sign, int, frac, exp. *)
Definition parse_number (s : jsstring) : Parsed JsValue :=
  let '(neg, s0) :=
    match s with
    | c :: t => if c =? 45 (* - *) then (true, t) else (false, s)
    | [] => (false, s)
    end in
  match parse_int s0 with
  | Done ip s1 =>
      match parse_frac s1 with
      | Done fp s2 =>
          match parse_exp s2 with
          | Done e s3 =>
              Done (JNumber neg (digits_value (ip ++ fp))
                            (e - Z.of_nat (List.length fp))) s3
          | _ => SyntaxError
          end
      | _ => SyntaxError
      end
  | _ => SyntaxError
  end.

(** One of the three literal names, or a number. *)
Definition parse_word (s : jsstring) : Parsed JsValue :=
  match stripPrefix (lit "true") s with
  | Some rest => Done (JBool true) rest
  | None =>
      match stripPrefix (lit "false") s with
      | Some rest => Done (JBool false) rest
      | None =>
          match stripPrefix (lit "null") s with
          | Some rest => Done JNull rest
          | None => parse_number s
          end
      end
  end.

(** value, and the two loops of the grammar: the elements of an array
    after its opening bracket and the members of an object after its
    opening brace.  The text handed to the loops has its leading white
    space skipped; [acc] holds what was read, last first. *)
Fixpoint parse_value (fuel : nat) (s : jsstring) : Parsed JsValue :=
  match fuel with
  | O => OutOfFuel
  | S fuel' =>
      match s with
      | [] => SyntaxError
      | c :: s' =>
          if c =? 34 then                            (* quote *)
            match parse_chars s' [] with
            | Done str rest => Done (JString str) rest
            | _ => SyntaxError
            end
          else if c =? 91 then                       (* [ *)
            match skip_ws s' with
            | [] => SyntaxError
            | d :: rest =>
                if d =? 93 (* ] *) then Done (JArray []) rest
                else parse_elements fuel' (d :: rest) []
            end
          else if c =? 123 then                      (* { *)
            match skip_ws s' with
            | [] => SyntaxError
            | d :: rest =>
                if d =? 125 (* } *) then Done (JObject []) rest
                else parse_members fuel' (d :: rest) []
            end
          else parse_word s
      end
  end

with parse_elements (fuel : nat) (s : jsstring) (acc : list JsValue)
  : Parsed JsValue :=
  match fuel with
  | O => OutOfFuel
  | S fuel' =>
      match parse_value fuel' s with
      | Done v rest =>
          match skip_ws rest with
          | [] => SyntaxError
          | d :: rest' =>
              if d =? 44 (* , *)
              then parse_elements fuel' (skip_ws rest') (v :: acc)
              else if d =? 93 (* ] *)
              then Done (JArray (rev (v :: acc))) rest'
              else SyntaxError
          end
      | SyntaxError => SyntaxError
      | OutOfFuel => OutOfFuel
      end
  end

with parse_members (fuel : nat) (s : jsstring)
                   (acc : list (jsstring * JsValue)) : Parsed JsValue :=
  match fuel with
  | O => OutOfFuel
  | S fuel' =>
      match s with
      | [] => SyntaxError
      | c :: s' =>
          if c =? 34 then                            (* quote *)
            match parse_chars s' [] with
            | Done key rest =>
                match skip_ws rest with
                | [] => SyntaxError
                | d :: rest1 =>
                    if d =? 58 then                  (* : *)
                      match parse_value fuel' (skip_ws rest1) with
                      | Done v rest2 =>
                          match skip_ws rest2 with
                          | [] => SyntaxError
                          | d' :: rest3 =>
                              if d' =? 44 then       (* , *)
                                parse_members fuel' (skip_ws rest3)
                                              ((key, v) :: acc)
                              else if d' =? 125 then (* } *)
                                Done (JObject (rev ((key, v) :: acc))) rest3
                              else SyntaxError
                          end
                      | SyntaxError => SyntaxError
                      | OutOfFuel => OutOfFuel
                      end
                    else SyntaxError
                end
            | _ => SyntaxError
            end
          else SyntaxError
      end
  end.

(** [JSON.parse(text)] : the value of the text, or [None] when the call
    throws a SyntaxError.  One value, white space around it, nothing
    else. *)
Definition JSON_parse (text : jsstring) : option JsValue :=
  match parse_value (2 * List.length text + 1) (skip_ws text) with
  | Done v rest => match skip_ws rest with [] => Some v | _ :: _ => None end
  | _ => None
  end.

End Json.
Export Json.

(** ** The host platform

    Three library functions depend on the platform and on floating-point
    formatting and are taken as parameters: the string form of a number,
    and the two functions of Node's [path] module the sources call. *)

Class Platform : Type := {
  (** [String(x)] for the number with this decimal literal *)
  Number_toString : bool -> N -> Z -> jsstring;
  (** [path.isAbsolute(p)] *)
  path_isAbsolute : jsstring -> bool;
  (** [path.join(a, b)] *)
  path_join : jsstring -> jsstring -> jsstring
}.

(** ** cursor.ts: the agent invoker *)

Module Cursor.

(** An [Error] object: its message and the [retryable] property that the
    sources attach to some errors ([None]: the property was never set). *)
Record JsError : Type := mkError {
  message : jsstring;
  retryable : option bool
}.

(** [new Error(msg)] for a string [msg]. *)
Definition Error (msg : jsstring) : JsError :=
  {| message := msg; retryable := None |}.

(** The settlement of a promise. *)
Inductive Settled (A : Type) : Type :=
  | Resolved (a : A)
  | Rejected (e : JsError).
Arguments Resolved {A} a.
Arguments Rejected {A} e.

(** How a spawned process ends for its parent: the [close] event with
    the exit code ([None] when a signal ended the process, as the
    timeout's SIGTERM does) and what was read from its output streams, or
    the [error] event of a failed spawn. *)
Inductive ProcEvent : Type :=
  | ProcClose (code : option Z) (stdout stderr : jsstring)
  | ProcError (err : jsstring).

Section WithPlatform.
Context `{Platform}.

(** ToString of a value built by [JSON.parse]; [None] is the TypeError
    raised for an object whose own [toString] member hides the inherited
    method. *)
Fixpoint ToString (v : JsValue) : option jsstring :=
  match v with
  | JUndefined => Some (lit "undefined")
  | JNull => Some (lit "null")
  | JBool b => Some (if b then lit "true" else lit "false")
  | JNumber n d e => Some (Number_toString n d e)
  | JString s => Some s
  | JArray items =>
      (fix join (l : list JsValue) : option jsstring :=
         match l with
         | [] => Some []
         | x :: l' =>
             match (match x with
                    | JUndefined | JNull => Some []
                    | _ => ToString x
                    end) with
             | None => None
             | Some sx =>
                 match l' with
                 | [] => Some sx
                 | _ :: _ =>
                     match join l' with
                     | Some r => Some (sx ++ [44] ++ r)
                     | None => None
                     end
                 end
             end
         end) items
  | JObject ms =>
      match lookup_member (lit "toString") ms with
      | Some _ => None
      | None => Some (lit "[object Object]")
      end
  end.

(** [new Error(x)] for any value: the message is [String(x)], and is
    empty when [x] is [undefined]. *)
Definition new_Error (x : JsValue) : option JsError :=
  match x with
  | JUndefined => Some (Error [])
  | _ => option_map Error (ToString x)
  end.

(** [createChat(workspace)], given how the spawned process ends. *)
Definition createChat (ev : ProcEvent) : Settled jsstring :=
  match ev with
  | ProcError err => Rejected (Error (lit "Spawn failed: " ++ err))
  | ProcClose code stdout stderr =>
      match code with
      | Some 0%Z =>
          let chatId := trim stdout in
          if negb (nonEmpty chatId)
          then Rejected (Error (lit "Cursor returned empty chat ID"))
          else Resolved chatId
      | _ =>
          Rejected (Error (lit "Failed to create chat: "
                           ++ orElse stderr (lit "Unknown error")))
      end
  end.

Import Regex.

Definition RETRYABLE_PATTERNS : list (list atom) :=
  [ chars "resource_exhausted";
    chars "rate" ++ [OptAny] ++ chars "limit";
    chars "too many requests";
    chars "service unavailable";
    chars "timeout" ].

Definition isRetryable (text : jsstring) : bool :=
  existsb (fun p => test p text) RETRYABLE_PATTERNS.

(** The [try] block of [sendPromptOnce]: how it settles the promise, or
    [None] when it throws ([JSON.parse] on a text outside the grammar,
    the property read on [null], the message of the error on a value
    without a string form). *)
Definition try_block (output : jsstring) : option (Settled JsValue) :=
  response ← JSON_parse output;
  is_error ← get_field response (lit "is_error");
  if truthy is_error
  then
    result ← get_field response (lit "result");
    err ← new_Error result;
    Some (Rejected err)
  else
    result ← get_field response (lit "result");
    Some (Resolved result).

(** The [catch] clause of [sendPromptOnce]. *)
Definition catch_block (output : jsstring) : Settled JsValue :=
  if nonEmpty output
  then Resolved (JString output)
  else Rejected (Error (lit "Empty response from Cursor")).

(** [sendPromptOnce(chatId, prompt)], given how the spawned process ends. *)
Definition sendPromptOnce (ev : ProcEvent) : Settled JsValue :=
  match ev with
  | ProcError err => Rejected (Error (lit "Spawn failed: " ++ err))
  | ProcClose code stdout stderr =>
      let output := trim stdout in
      if includes (lit "error") (toLowerCase output)
         && negb (startsWith (lit "{") output)
      then
        Rejected {| message := output;
                    retryable := Some (isRetryable (output ++ stderr)) |}
      else
        match code with
        | Some 0%Z =>
            match try_block output with
            | Some settled => settled
            | None => catch_block output
            end
        | _ =>
            let msg := orElse stderr (orElse stdout (lit "Unknown error")) in
            Rejected {| message := msg; retryable := Some (isRetryable msg) |}
        end
  end.

(** What [sendPrompt] does to its environment. *)
Inductive Effect : Type :=
  | Spawn (chatId prompt : jsstring)  (* one call of [sendPromptOnce] *)
  | Sleep (ms : Z).                   (* [setTimeout] awaited *)

(** A run of [sendPrompt]: its effects in order and its settlement. *)
Record Run : Type := mkRun {
  effects : list Effect;
  outcome : Settled JsValue
}.

Definition preceded (pre : list Effect) (r : Run) : Run :=
  {| effects := pre ++ effects r; outcome := outcome r |}.

Section SendPrompt.
Variables (chatId prompt : jsstring) (maxRetries : Z).
(** [agent k] is the end of the process spawned by attempt [k]. *)
Variable agent : nat -> ProcEvent.

(** [Math.min(1000 * Math.pow(2, attempt - 1), 30000)], computed for
    [attempt > 0] only. *)
Definition backoff (attempt : nat) : Z :=
  Z.min (1000 * 2 ^ (Z.of_nat attempt - 1)) 30000.

(** The [for] loop of [sendPrompt] from iteration [attempt] on;
    [remaining] counts the iterations for which [attempt <= maxRetries]
    still holds, and at zero the loop is left. *)
Fixpoint attempts_from (remaining attempt : nat) (lastError : option JsError)
  : Run :=
  match remaining with
  | O =>
      {| effects := [];
         outcome := Rejected (match lastError with
                              | Some e => e
                              | None => Error (lit "Failed after retries")
                              end) |}
  | S remaining' =>
      preceded
        ((if (0 <? Z.of_nat attempt)%Z then [Sleep (backoff attempt)] else [])
         ++ [Spawn chatId prompt])
        match sendPromptOnce (agent attempt) with
        | Resolved v => {| effects := []; outcome := Resolved v |}
        | Rejected err =>
            let retry :=
              match retryable err with Some true => true | _ => false end in
            if negb retry || (maxRetries <=? Z.of_nat attempt)%Z
            then {| effects := []; outcome := Rejected err |}
            else attempts_from remaining' (S attempt) (Some err)
        end
  end.

(** [sendPrompt(chatId, _workspace, prompt, maxRetries)] *)
Definition sendPrompt : Run :=
  attempts_from (Z.to_nat (maxRetries + 1)) 0 None.

End SendPrompt.

(** *** Observations on a run *)

(** The number of processes spawned. *)
Fixpoint spawn_count (es : list Effect) : nat :=
  match es with
  | [] => O
  | Spawn _ _ :: es' => S (spawn_count es')
  | Sleep _ :: es' => spawn_count es'
  end.

(** The time slept before each spawn, in milliseconds; [pending] is the
    time slept since the last spawn. *)
Fixpoint delays_before (pending : Z) (es : list Effect) : list Z :=
  match es with
  | [] => []
  | Sleep ms :: es' => delays_before (pending + ms) es'
  | Spawn _ _ :: es' => pending :: delays_before 0 es'
  end.

(** The time slept before attempt [k]: none before the first. *)
Definition delay_before_attempt (k : nat) : Z :=
  if (k =? 0)%nat then 0%Z else Z.min (1000 * 2 ^ (Z.of_nat k - 1)) 30000.

(** The effects of [n] attempts in a row, the first being attempt [a]. *)
Fixpoint schedule (chatId prompt : jsstring) (a n : nat) : list Effect :=
  match n with
  | O => []
  | S n' =>
      (if (0 <? Z.of_nat a)%Z then [Sleep (backoff a)] else [])
      ++ [Spawn chatId prompt] ++ schedule chatId prompt (S a) n'
  end.

Definition attempts_made (r : Run) : nat := spawn_count (effects r).
Definition attempt_delays (r : Run) : list Z := delays_before 0 (effects r).

(** An attempt that [sendPrompt] retries when attempts remain: rejected
    with the [retryable] property set to [true]. *)
Definition fails_retryable (ev : ProcEvent) : bool :=
  match sendPromptOnce ev with
  | Rejected e => match retryable e with Some true => true | _ => false end
  | Resolved _ => false
  end.

Definition succeeds (ev : ProcEvent) : bool :=
  match sendPromptOnce ev with Resolved _ => true | Rejected _ => false end.

(** The check that opens the [close] handler of [sendPromptOnce]. *)
Definition error_text (output : jsstring) : bool :=
  includes (lit "error") (toLowerCase output)
  && negb (startsWith (lit "{") output).

End WithPlatform.

End Cursor.
Export Cursor.

(** ** store.ts: poll state and session files

    The data directory holds [state.json], an object keyed by channel
    identifier, and one file [channels/<id>.json] per channel.  Both are
    modelled by finite maps keyed by the channel identifier: a missing
    [state.json] reads as the empty map, a missing channel file as an
    absent key.  Channel identifiers are Slack identifiers (letters and
    digits), so distinct identifiers name distinct files and none
    collides with a built-in property name. *)

Module Store.

Record ChannelData : Type := {
  projectPath : jsstring;
  cursorChatId : jsstring;
  createdAt : jsstring
}.

(** One entry of [PollState.channels]. *)
Record PollEntry : Type := { lastSeenTs : jsstring }.

Record Files : Type := mkFiles {
  stateFile : gmap jsstring PollEntry;
  channelFiles : gmap jsstring ChannelData
}.

Definition loadPollState (fs : Files) : gmap jsstring PollEntry :=
  stateFile fs.

Definition savePollState (state : gmap jsstring PollEntry) (fs : Files)
  : Files :=
  {| stateFile := state; channelFiles := channelFiles fs |}.

(** [state.channels[channelId]?.lastSeenTs] *)
Definition getLastSeenTs (channelId : jsstring) (fs : Files)
  : option jsstring :=
  let state := loadPollState fs in
  match state !! channelId with
  | Some entry => Some (lastSeenTs entry)
  | None => None
  end.

Definition setLastSeenTs (channelId ts : jsstring) (fs : Files) : Files :=
  let state := loadPollState fs in
  let state' :=
    match state !! channelId with
    | None => <[channelId := {| lastSeenTs := ts |}]> state
    | Some _ => alter (fun _ => {| lastSeenTs := ts |}) channelId state
    end in
  savePollState state' fs.

Definition loadChannelData (channelId : jsstring) (fs : Files)
  : option ChannelData :=
  channelFiles fs !! channelId.

Definition saveChannelData (channelId : jsstring) (data : ChannelData)
                           (fs : Files) : Files :=
  {| stateFile := stateFile fs;
     channelFiles := <[channelId := data]> (channelFiles fs) |}.

Definition deleteChannelData (channelId : jsstring) (fs : Files) : Files :=
  {| stateFile := stateFile fs;
     channelFiles := delete channelId (channelFiles fs) |}.

End Store.

(** ** slack.ts: the pure part of the chat client *)

Module Slack.

Record SlackMessage : Type := {
  ts : jsstring;
  user : option jsstring;
  text : option jsstring;
  bot_id : option jsstring
}.

(** A message as the Web API returns it: every field may be missing. *)
Record ApiMessage : Type := {
  api_ts : option jsstring;
  api_user : option jsstring;
  api_text : option jsstring;
  api_bot_id : option jsstring
}.

Record SlackChannel : Type := {
  id : jsstring;
  name : jsstring;
  is_member : bool
}.

Record ApiChannel : Type := {
  api_id : option jsstring;
  api_name : option jsstring;
  api_is_member : option bool
}.

(** Truthiness of an optional string: present and non-empty. *)
Definition present (o : option jsstring) : bool :=
  match o with Some s => nonEmpty s | None => false end.

(** What [listBotChannels] makes of [result.channels]. *)
Definition memberChannels (channels : option (list ApiChannel))
  : list SlackChannel :=
  match channels with
  | None => []
  | Some chs =>
      omap (fun ch =>
              match api_is_member ch, api_id ch, api_name ch with
              | Some true, Some i, Some n =>
                  if nonEmpty i && nonEmpty n
                  then Some {| id := i; name := n; is_member := true |}
                  else None
              | _, _, _ => None
              end) chs
  end.

(** What [getHistory] makes of [result.messages]: messages with a
    timestamp and a text, oldest first. *)
Definition historyMessages (messages : option (list ApiMessage))
  : list SlackMessage :=
  match messages with
  | None => []
  | Some msgs =>
      rev (omap (fun msg =>
                   match api_ts msg, api_text msg with
                   | Some t, Some _ =>
                       if nonEmpty t
                       then Some {| ts := t; user := api_user msg;
                                    text := api_text msg;
                                    bot_id := api_bot_id msg |}
                       else None
                   | _, _ => None
                   end) msgs)
  end.

(** The mention [<@ID>] of the bot user. *)
Definition mention (botUserId : jsstring) : jsstring :=
  lit "<@" ++ botUserId ++ lit ">".

Definition mentionsBot (botUserId : jsstring) (text : option jsstring)
  : bool :=
  match text with
  | None => false
  | Some t => nonEmpty t && includes (mention botUserId) t
  end.

(** The user identifier is made of letters and digits, so the regular
    expression built from the mention matches it literally. *)
Definition removeBotMention (botUserId : jsstring) (text : jsstring)
  : jsstring :=
  trim (removeAll (mention botUserId) text).

End Slack.

(** ** index.ts: the bot

    The bot runs against its collaborators: the Slack Web API, the file
    system, [git], the agent CLI and the clock.  Every call to one of
    them is recorded in a trace, and what the collaborator answers is
    read from an environment: the answer may depend on the arguments and
    on the moment of the call, the number of calls made before it. *)

Module Bot.

(** A call to a collaborator. *)
Inductive Event : Type :=
  | EvList                                            (* conversations.list *)
  | EvHistory (channel : jsstring) (oldest : option jsstring)
  | EvPost (channel : jsstring) (text : JsValue)      (* chat.postMessage *)
  | EvUpdate (channel ts text : jsstring)             (* chat.update *)
  | EvReactionAdd (channel ts emoji : jsstring)
  | EvReactionRemove (channel ts emoji : jsstring)
  | EvExists (path : jsstring)                        (* fs.existsSync *)
  | EvReaddir (path : jsstring)                       (* fs.readdirSync *)
  | EvGitDiff (cwd : jsstring)                        (* execSync("git diff") *)
  | EvCreateChat (workspace : jsstring)               (* cursor agent create-chat *)
  | EvAgent (e : Effect)                              (* inside sendPrompt *)
  | EvDate.                                           (* new Date() *)

(** The answer to a call: a value, or an exception. *)
Inductive Reply (X : Type) : Type :=
  | Returns (x : X)
  | Raises (e : JsError).
Arguments Returns {X} x.
Arguments Raises {X} e.

Record Dirent : Type := { dirent_name : jsstring; isDirectory : bool }.

(** The configuration and the collaborators. *)
Record Env : Type := {
  slackBotUserId : jsstring;
  baseProjectPath : jsstring;
  conversations_list : nat -> Reply (option (list Slack.ApiChannel));
  conversations_history :
    nat -> jsstring -> option jsstring -> Reply (option (list Slack.ApiMessage));
  chat_postMessage : nat -> jsstring -> JsValue -> Reply (option jsstring);
  chat_update : nat -> jsstring -> jsstring -> jsstring -> Reply unit;
  reactions_add : nat -> jsstring -> jsstring -> jsstring -> Reply unit;
  reactions_remove : nat -> jsstring -> jsstring -> jsstring -> Reply unit;
  fs_existsSync : nat -> jsstring -> bool;
  fs_readdirSync : nat -> jsstring -> Reply (list Dirent);
  git_diff : nat -> jsstring -> Reply jsstring;
  (** the end of the [n]-th agent process spawned *)
  agent_process : nat -> ProcEvent;
  Date_toISOString : nat -> jsstring
}.

(** The state of the bot and of its surroundings.  [dispatched] is a
    ghost record of the calls of [processMessage], oldest first. *)
Record World : Type := mkWorld {
  files : Store.Files;
  trace : list Event;
  spawned : nat;
  dispatched : list (jsstring * Slack.SlackMessage)
}.

(** How a statement completes. *)
Inductive Completion (A : Type) : Type :=
  | Normal (a : A)
  | Thrown (e : JsError).
Arguments Normal {A} a.
Arguments Thrown {A} e.

(** Computations over the world that may throw. *)
Definition M (A : Type) : Type := World -> Completion A * World.

#[export] Instance M_ret : MRet M := fun A a w => (Normal a, w).

#[export] Instance M_bind : MBind M := fun A B k m w =>
  match m w with
  | (Normal a, w') => k a w'
  | (Thrown e, w') => (Thrown e, w')
  end.

(** [try { m } catch (err) { h err }] *)
Definition try_catch {A} (m : M A) (h : JsError -> M A) : M A := fun w =>
  match m w with
  | (Normal a, w') => (Normal a, w')
  | (Thrown e, w') => h e w'
  end.

Definition throw {A} (e : JsError) : M A := fun w => (Thrown e, w).

(** [for (const x of xs) { body x }] : left at the first exception. *)
Fixpoint for_each {A} (xs : list A) (body : A -> M unit) : M unit :=
  match xs with
  | [] => mret tt
  | x :: xs' => body x ≫= fun _ => for_each xs' body
  end.

Definition record (ev : Event) (w : World) : World :=
  {| files := files w; trace := trace w ++ [ev];
     spawned := spawned w; dispatched := dispatched w |}.

(** A call to a collaborator: recorded, then answered. *)
Definition call {X} (ev : Event) (answer : nat -> Reply X) : M X := fun w =>
  match answer (List.length (trace w)) with
  | Returns x => (Normal x, record ev w)
  | Raises e => (Thrown e, record ev w)
  end.

(** A store operation. *)
Definition read {X} (f : Store.Files -> X) : M X := fun w =>
  (Normal (f (files w)), w).

Definition write (f : Store.Files -> Store.Files) : M unit := fun w =>
  (Normal tt, {| files := f (files w); trace := trace w;
                 spawned := spawned w; dispatched := dispatched w |}).

Definition note_dispatch (channelId : jsstring) (message : Slack.SlackMessage)
  : M unit := fun w =>
  (Normal tt, {| files := files w; trace := trace w; spawned := spawned w;
                 dispatched := dispatched w ++ [(channelId, message)] |}).

(** The emoji of the replies, as UTF-16 code units. *)
Definition warning_sign : jsstring := [0x26A0; 0xFE0F].
Definition file_folder : jsstring := [0xD83D; 0xDCC1].
Definition cross_mark : jsstring := [0x274C].
Definition light_bulb : jsstring := [0xD83D; 0xDCA1].
Definition sparkles : jsstring := [0x2728].
Definition memo : jsstring := [0xD83D; 0xDCDD].
Definition hourglass : jsstring := [0x23F3].
Definition check_mark : jsstring := [0x2705].
Definition bullet : jsstring := [0x2022].
Definition newline : jsstring := [10].

(** [Array.prototype.sort] without a comparator orders strings by their
    code units. *)
Fixpoint code_unit_leb (a b : jsstring) : bool :=
  match a, b with
  | [], _ => true
  | _ :: _, [] => false
  | x :: a', y :: b' => (x <? y) || ((x =? y) && code_unit_leb a' b')
  end.

Fixpoint insert_sorted (x : jsstring) (l : list jsstring) : list jsstring :=
  match l with
  | [] => [x]
  | y :: l' => if code_unit_leb x y then x :: l else y :: insert_sorted x l'
  end.

Definition sort (l : list jsstring) : list jsstring :=
  fold_right insert_sorted [] l.

(** [parts.join(sep)] *)
Fixpoint join (sep : jsstring) (parts : list jsstring) : jsstring :=
  match parts with
  | [] => []
  | [x] => x
  | x :: rest => x ++ sep ++ join sep rest
  end.

(** A status timestamp that is present and non-empty. *)
Definition truthy_ts (o : option jsstring) : option jsstring :=
  match o with
  | Some t => if nonEmpty t then Some t else None
  | None => None
  end.

Section WithEnv.
Context `{Platform}.
Variable env : Env.

(** *** The calls of slack.ts *)

Definition listBotChannels : M (list Slack.SlackChannel) :=
  result ← call EvList (conversations_list env);
  mret (Slack.memberChannels result).

(** [conversations.history] is asked for at most 100 messages, after
    [oldest] when that is given. *)
Definition getHistory (channelId : jsstring) (oldest : option jsstring)
  : M (list Slack.SlackMessage) :=
  let oldest' := truthy_ts oldest in
  result ← call (EvHistory channelId oldest')
                (fun n => conversations_history env n channelId oldest');
  mret (Slack.historyMessages result).

Definition postMessage (channelId : jsstring) (text : JsValue)
  : M (option jsstring) :=
  call (EvPost channelId text) (fun n => chat_postMessage env n channelId text).

Definition updateMessage (channelId ts text : jsstring) : M unit :=
  call (EvUpdate channelId ts text) (fun n => chat_update env n channelId ts text).

Definition addReaction (channelId ts emoji : jsstring) : M unit :=
  try_catch
    (call (EvReactionAdd channelId ts emoji)
          (fun n => reactions_add env n channelId ts emoji))
    (fun _ => mret tt).

Definition removeReaction (channelId ts emoji : jsstring) : M unit :=
  try_catch
    (call (EvReactionRemove channelId ts emoji)
          (fun n => reactions_remove env n channelId ts emoji))
    (fun _ => mret tt).

(** *** The calls of cursor.ts *)

(** [await cursor.createChat(workspace)] : one process is spawned. *)
Definition createChat_call (workspace : jsstring) : M jsstring := fun w =>
  let w' := {| files := files w;
               trace := trace w ++ [EvCreateChat workspace];
               spawned := S (spawned w);
               dispatched := dispatched w |} in
  match createChat (agent_process env (spawned w)) with
  | Resolved chatId => (Normal chatId, w')
  | Rejected e => (Thrown e, w')
  end.

(** [await cursor.sendPrompt(chatId, workspace, prompt)] with the default
    [maxRetries = 3]: the processes it spawns are the next ones. *)
Definition sendPrompt_call (chatId workspace prompt : jsstring) : M JsValue :=
  fun w =>
  let run := sendPrompt chatId prompt 3
               (fun k => agent_process env (spawned w + k)%nat) in
  let w' := {| files := files w;
               trace := trace w ++ map EvAgent (effects run);
               spawned := (spawned w + spawn_count (effects run))%nat;
               dispatched := dispatched w |} in
  match outcome run with
  | Resolved v => (Normal v, w')
  | Rejected e => (Thrown e, w')
  end.

(** *** The handlers *)

Definition resolveProjectPath (inputPath : jsstring) : jsstring :=
  if path_isAbsolute inputPath then inputPath
  else if nonEmpty (baseProjectPath env)
       then path_join (baseProjectPath env) inputPath
       else inputPath.

Definition say (channelId : jsstring) (text : jsstring) : M unit :=
  postMessage channelId (JString text) ≫= fun _ => mret tt.

Definition handleProjectsCommand (channelId : jsstring) : M unit :=
  if negb (nonEmpty (baseProjectPath env))
  then say channelId (warning_sign ++ lit " No base project path configured.")
  else
    try_catch
      (entries ← call (EvReaddir (baseProjectPath env))
                      (fun n => fs_readdirSync env n (baseProjectPath env));
       let dirs :=
         sort (map dirent_name
                 (List.filter (fun e => isDirectory e
                                   && negb (startsWith (lit ".") (dirent_name e)))
                         entries)) in
       if (List.length dirs =? 0)%nat
       then say channelId (file_folder ++ lit " No projects found.")
       else say channelId
              (file_folder ++ lit " *Projects in " ++ baseProjectPath env
               ++ lit ":*" ++ newline
               ++ join newline
                    (map (fun d => bullet ++ lit " `" ++ d ++ lit "`") dirs)))
      (fun err =>
         say channelId (cross_mark ++ lit " Failed to list projects: "
                        ++ message err)).

Definition handleDiffCommand (channelId : jsstring)
                             (channelData : option Store.ChannelData) : M unit :=
  match channelData with
  | None =>
      say channelId (light_bulb
                     ++ lit " No active conversation. Use `/new <project>` first.")
  | Some data =>
      try_catch
        (diff ← call (EvGitDiff (Store.projectPath data))
                     (fun n => git_diff env n (Store.projectPath data));
         if negb (nonEmpty (trim diff))
         then say channelId (sparkles ++ lit " No uncommitted changes.")
         else
           let maxLength := 3500%nat in
           let truncated := (maxLength <? List.length diff)%nat in
           let output := if truncated then substring0 maxLength diff else diff in
           say channelId
             (memo ++ lit " *Git diff for* `" ++ Store.projectPath data
              ++ lit "`:" ++ newline ++ lit "```diff" ++ newline
              ++ output ++ lit "```"
              ++ (if truncated then newline ++ lit "_(truncated)_" else [])))
        (fun err =>
           let msg := message err in
           if includes (lit "not a git repository") msg
           then say channelId (cross_mark ++ lit " Not a git repository.")
           else say channelId (cross_mark ++ lit " Failed to get diff: " ++ msg))
  end.

Definition handleNewCommand (channelId projectName : jsstring) : M unit :=
  let projectPath := resolveProjectPath projectName in
  found ← call (EvExists projectPath)
               (fun n => Returns (fs_existsSync env n projectPath));
  if negb found
  then say channelId (cross_mark ++ lit " Path does not exist: `"
                      ++ projectPath ++ lit "`")
  else
    statusTs ← postMessage channelId
                 (JString (hourglass ++ lit " Creating conversation for `"
                           ++ projectPath ++ lit "`..."));
    try_catch
      (chatId ← createChat_call projectPath;
       now ← call EvDate (fun n => Returns (Date_toISOString env n));
       write (Store.saveChannelData channelId
                {| Store.projectPath := projectPath;
                   Store.cursorChatId := chatId;
                   Store.createdAt := now |});;
       match truthy_ts statusTs with
       | Some t =>
           updateMessage channelId t
             (check_mark ++ lit " Started conversation for `"
              ++ projectPath ++ lit "`")
       | None => mret tt
       end)
      (fun err =>
         let msg := message err in
         match truthy_ts statusTs with
         | Some t =>
             updateMessage channelId t
               (cross_mark ++ lit " Failed to create conversation: " ++ msg)
         | None =>
             say channelId
               (cross_mark ++ lit " Failed to create conversation: " ++ msg)
         end).

Definition handlePrompt (channelId messageTs prompt : jsstring)
                        (channelData : Store.ChannelData) : M unit :=
  addReaction channelId messageTs (lit "hourglass_flowing_sand");;
  try_catch
    (response ← sendPrompt_call (Store.cursorChatId channelData)
                                (Store.projectPath channelData) prompt;
     removeReaction channelId messageTs (lit "hourglass_flowing_sand");;
     addReaction channelId messageTs (lit "white_check_mark");;
     postMessage channelId response;;
     mret tt)
    (fun err =>
       removeReaction channelId messageTs (lit "hourglass_flowing_sand");;
       addReaction channelId messageTs (lit "x");;
       let msg := message err in
       let userMessage :=
         cross_mark ++ lit " *Error processing your request*" ++ newline
         ++ (if includes (lit "resource_exhausted") msg
             then lit "```Rate limit exceeded. Please wait a moment and try again.```"
             else if includes (lit "timeout") msg || includes (lit "Timeout") msg
             then lit "```Request timed out. The operation took too long.```"
             else lit "```" ++ substring0 500 msg ++ lit "```") in
       say channelId userMessage).

Definition processMessage (channelId : jsstring)
                          (message : Slack.SlackMessage) : M unit :=
  note_dispatch channelId message;;
  let text := default [] (Slack.text message) in
  let cleanText := Slack.removeBotMention (slackBotUserId env) text in
  if Regex.test_command (lit "/projects") cleanText
  then handleProjectsCommand channelId
  else
    match Regex.match_new cleanText with
    | Some group => handleNewCommand channelId (trim group)
    | None =>
        if Regex.test_command (lit "/diff") cleanText
        then
          channelData ← read (Store.loadChannelData channelId);
          handleDiffCommand channelId channelData
        else
          channelData ← read (Store.loadChannelData channelId);
          match channelData with
          | None =>
              say channelId
                (light_bulb
                 ++ lit " No active conversation. Use `/new <project>` to start one."
                 ++ newline ++ lit "Use `/projects` to see available projects.")
          | Some data =>
              handlePrompt channelId (Slack.ts message) cleanText data
          end
    end.

(** The body of the loop of [pollChannel] for one message. *)
Definition pollMessage (channelId : jsstring) (message : Slack.SlackMessage)
  : M unit :=
  write (Store.setLastSeenTs channelId (Slack.ts message));;
  if Slack.present (Slack.bot_id message) then mret tt
  else
    channelData ← read (Store.loadChannelData channelId);
    let mentions := Slack.mentionsBot (slackBotUserId env) (Slack.text message) in
    if negb (bool_decide (is_Some channelData)) && negb mentions then mret tt
    else processMessage channelId message.

Definition pollChannel (channelId : jsstring) : M unit :=
  lastSeenTs ← read (Store.getLastSeenTs channelId);
  try_catch
    (messages ← getHistory channelId lastSeenTs;
     if negb (Slack.present lastSeenTs) && (0 <? List.length messages)%nat
     then
       match last messages with
       | Some latest => write (Store.setLastSeenTs channelId (Slack.ts latest))
       | None => throw (Error (lit "TypeError"))
       end
     else for_each messages (pollMessage channelId))
    (fun err => mret tt).

Definition poll : M unit :=
  try_catch
    (channels ← listBotChannels;
     for_each channels (fun channel => pollChannel (Slack.id channel)))
    (fun err => mret tt).

(** *** Observations on a poll cycle *)

(** What the history fetch of a poll of the channel returns in world
    [w]; nothing when the fetch fails. *)
Definition fetched (channelId : jsstring) (w : World)
  : list Slack.SlackMessage :=
  let oldest := truthy_ts (Store.getLastSeenTs channelId (files w)) in
  match conversations_history env (List.length (trace w)) channelId oldest with
  | Returns result => Slack.historyMessages result
  | Raises _ => []
  end.

End WithEnv.

(** The stored cursor and the stored session of a channel. *)
Definition cursor_of (channelId : jsstring) (w : World) : option jsstring :=
  Store.getLastSeenTs channelId (files w).

Definition session_of (channelId : jsstring) (w : World)
  : option Store.ChannelData :=
  Store.loadChannelData channelId (files w).

(** A computation that leaves every world in relation [R] with the world
    it started from. *)
Definition keeps {A} (R : World -> World -> Prop) (m : M A) : Prop :=
  forall w, R w (snd (m w)).

(** What no command handler changes: the poll state and the record of
    dispatched messages. *)
Definition handler_frame (w w' : World) : Prop :=
  Store.stateFile (files w') = Store.stateFile (files w)
  /\ dispatched w' = dispatched w.

End Bot.

(** ** Concrete inputs for the worked examples *)

Module Scenario.

(** Decimal digits of a natural number, most significant first. *)
Definition decimal (n : N) : jsstring :=
  lit (NilEmpty.string_of_uint (N.to_uint n)).

(** A POSIX host.  [path.join] is given for a base without a trailing
    slash and a plain relative name, and the string form of a number for
    integer literals without exponent; the examples use nothing else. *)
Definition posix : Platform := {|
  Number_toString := fun neg d e =>
    (if neg && negb (d =? 0) then lit "-" else []) ++ decimal d;
  path_isAbsolute := fun p => startsWith (lit "/") p;
  path_join := fun a b => a ++ lit "/" ++ b
|}.

Definition quoted (s : string) : jsstring := [dquote] ++ lit s ++ [dquote].

(** A structured response with the error flag set:
    [{"is_error":true,"result":"resource_exhausted: quota"}] *)
Definition quota_response : jsstring :=
  lit "{" ++ quoted "is_error" ++ lit ":true," ++ quoted "result" ++ lit ":"
  ++ quoted "resource_exhausted: quota" ++ lit "}".

(** A structured response without error: [{"is_error":false,"result":"done"}] *)
Definition ok_response : jsstring :=
  lit "{" ++ quoted "is_error" ++ lit ":false," ++ quoted "result" ++ lit ":"
  ++ quoted "done" ++ lit "}".

Definition chat : jsstring := lit "chat-1".
Definition question : jsstring := lit "explain the main function".

(** An agent whose every process prints the quota response and exits 0. *)
Definition agent_quota (k : nat) : ProcEvent :=
  ProcClose (Some 0%Z) quota_response [].

(** An agent that is rate limited twice and then answers. *)
Definition agent_recovers (k : nat) : ProcEvent :=
  if (k <? 2)%nat
  then ProcClose (Some 1%Z) [] (lit "429 Too Many Requests")
  else ProcClose (Some 0%Z) ok_response [].

(** An agent whose every process is ended by a signal and leaves
    "timeout" on its error stream. *)
Definition agent_timeout (k : nat) : ProcEvent :=
  ProcClose None [] (lit "timeout").

(** An agent that is not logged in. *)
Definition agent_denied (k : nat) : ProcEvent :=
  ProcClose (Some 1%Z) [] (lit "not authenticated").

(** A workspace with the channel [C1], polled before, and the channel
    [C2], never polled; [C1] has a session. *)
Definition C1 : jsstring := lit "C1".
Definition C2 : jsstring := lit "C2".

Definition session1 : Store.ChannelData :=
  {| Store.projectPath := lit "/srv/app";
     Store.cursorChatId := chat;
     Store.createdAt := lit "2025-01-01T00:00:00.000Z" |}.

Definition files0 : Store.Files :=
  {| Store.stateFile := {[ C1 := {| Store.lastSeenTs := lit "100.0" |} ]};
     Store.channelFiles := {[ C1 := session1 ]} |}.

Definition world0 : Bot.World :=
  {| Bot.files := files0; Bot.trace := []; Bot.spawned := 0;
     Bot.dispatched := [] |}.

Definition api_message (ts text : string) : Slack.ApiMessage :=
  {| Slack.api_ts := Some (lit ts); Slack.api_user := Some (lit "U2");
     Slack.api_text := Some (lit text); Slack.api_bot_id := None |}.

Definition message (ts text : string) : Slack.SlackMessage :=
  {| Slack.ts := lit ts; Slack.user := Some (lit "U2");
     Slack.text := Some (lit text); Slack.bot_id := None |}.

(** Slack returns two messages for every history request, newest first,
    and refuses every post; no path exists. *)
Definition env_posts_fail : Bot.Env := {|
  Bot.slackBotUserId := lit "U1";
  Bot.baseProjectPath := lit "/srv";
  Bot.conversations_list := fun _ => Bot.Returns None;
  Bot.conversations_history := fun _ _ _ =>
    Bot.Returns (Some [api_message "102.0" "/projects";
                       api_message "101.0" "/diff"]);
  Bot.chat_postMessage := fun _ _ _ => Bot.Raises (Error (lit "ratelimited"));
  Bot.chat_update := fun _ _ _ _ => Bot.Returns tt;
  Bot.reactions_add := fun _ _ _ _ => Bot.Returns tt;
  Bot.reactions_remove := fun _ _ _ _ => Bot.Returns tt;
  Bot.fs_existsSync := fun _ _ => false;
  Bot.fs_readdirSync := fun _ _ => Bot.Returns [];
  Bot.git_diff := fun _ _ => Bot.Returns [];
  Bot.agent_process := agent_quota;
  Bot.Date_toISOString := fun _ => lit "2025-01-02T00:00:00.000Z"
|}.

(** Slack accepts every post; the history of a channel is empty at the
    first request and holds one message from then on. *)
Definition env_first_message : Bot.Env := {|
  Bot.slackBotUserId := lit "U1";
  Bot.baseProjectPath := lit "/srv";
  Bot.conversations_list := fun _ => Bot.Returns None;
  Bot.conversations_history := fun n _ _ =>
    Bot.Returns (Some (if (n =? 0)%nat then []
                       else [api_message "201.0" "<@U1> /projects"]));
  Bot.chat_postMessage := fun _ _ _ => Bot.Returns (Some (lit "300.0"));
  Bot.chat_update := fun _ _ _ _ => Bot.Returns tt;
  Bot.reactions_add := fun _ _ _ _ => Bot.Returns tt;
  Bot.reactions_remove := fun _ _ _ _ => Bot.Returns tt;
  Bot.fs_existsSync := fun _ _ => false;
  Bot.fs_readdirSync := fun _ _ => Bot.Returns [];
  Bot.git_diff := fun _ _ => Bot.Returns [];
  Bot.agent_process := agent_quota;
  Bot.Date_toISOString := fun _ => lit "2025-01-02T00:00:00.000Z"
|}.

(** Slack accepts every post.  The history of a channel holds one
    message, "hello", not addressed to the bot; the base path holds the
    directories [b], [a] and [.hidden] and the file [notes]. *)
Definition env_quiet : Bot.Env := {|
  Bot.slackBotUserId := lit "U1";
  Bot.baseProjectPath := lit "/srv";
  Bot.conversations_list := fun _ => Bot.Returns None;
  Bot.conversations_history := fun _ _ _ =>
    Bot.Returns (Some [api_message "101.0" "hello"]);
  Bot.chat_postMessage := fun _ _ _ => Bot.Returns (Some (lit "300.0"));
  Bot.chat_update := fun _ _ _ _ => Bot.Returns tt;
  Bot.reactions_add := fun _ _ _ _ => Bot.Returns tt;
  Bot.reactions_remove := fun _ _ _ _ => Bot.Returns tt;
  Bot.fs_existsSync := fun _ _ => false;
  Bot.fs_readdirSync := fun _ _ =>
    Bot.Returns [ {| Bot.dirent_name := lit "b"; Bot.isDirectory := true |};
                  {| Bot.dirent_name := lit "a"; Bot.isDirectory := true |};
                  {| Bot.dirent_name := lit ".hidden"; Bot.isDirectory := true |};
                  {| Bot.dirent_name := lit "notes"; Bot.isDirectory := false |} ];
  Bot.git_diff := fun _ _ => Bot.Returns [];
  Bot.agent_process := agent_quota;
  Bot.Date_toISOString := fun _ => lit "2025-01-02T00:00:00.000Z"
|}.

(** The sample workspace without the session of [C1]. *)
Definition world_no_session : Bot.World :=
  {| Bot.files := {| Store.stateFile := Store.stateFile files0;
                     Store.channelFiles := ∅ |};
     Bot.trace := []; Bot.spawned := 0; Bot.dispatched := [] |}.

End Scenario.

(** ** Further observations and inputs *)

Module Observe.
Import Regex Bot.

(** A pattern element that stands for ASCII characters only. *)
Definition ascii_atom (a : atom) : bool :=
  match a with
  | Chr c => c <? 128
  | OptAny => true
  end.

(** Slack accepts every post and every update of a message. *)
Definition slack_accepts (env : Env) : Prop :=
  (forall n channel text,
      exists ts, chat_postMessage env n channel text = Returns ts)
  /\ (forall n channel ts text, chat_update env n channel ts text = Returns tt).

(** The names that [handleProjectsCommand] lists, before sorting: the
    directories whose name does not start with a dot. *)
Definition visible_dirs (entries : list Dirent) : list jsstring :=
  map dirent_name
      (List.filter (fun e => isDirectory e
                             && negb (startsWith (lit ".") (dirent_name e)))
                   entries).

(** The reply of [handleProjectsCommand] for the sorted names [dirs]. *)
Definition projects_reply (base : jsstring) (dirs : list jsstring) : jsstring :=
  if (List.length dirs =? 0)%nat
  then file_folder ++ lit " No projects found."
  else file_folder ++ lit " *Projects in " ++ base ++ lit ":*" ++ newline
       ++ join newline (map (fun d => bullet ++ lit " `" ++ d ++ lit "`") dirs).

(** A message that the loop of [pollChannel] passes over: sent by a bot,
    or not addressed to the bot in a channel without session. *)
Definition from_bot (m : Slack.SlackMessage) : bool :=
  Slack.present (Slack.bot_id m).

(** The worlds a poll of each channel in turn leads through. *)
Definition poll_each `{Platform} (env : Env) (channels : list Slack.SlackChannel)
                     (w : World) : World :=
  fold_left (fun w' channel => snd (pollChannel env (Slack.id channel) w'))
            channels w.

(** A structured response that reports success and speaks of an error:
    [{"is_error":false,"result":"Fixed the error in main.ts"}] *)
Definition error_report : jsstring :=
  lit "{" ++ Scenario.quoted "is_error" ++ lit ":false,"
  ++ Scenario.quoted "result" ++ lit ":"
  ++ Scenario.quoted "Fixed the error in main.ts" ++ lit "}".

(** An agent that cannot be started. *)
Definition agent_missing (k : nat) : ProcEvent :=
  ProcError (lit "spawn cursor ENOENT").

(** An agent whose processes are killed before they print anything. *)
Definition agent_silent (k : nat) : ProcEvent := ProcClose None [] [].

(** A computation that never throws. *)
Definition completes {A} (m : M A) : Prop :=
  forall w, exists a, fst (m w) = Normal a.

(** What only a start-session command changes: the files of the store. *)
Definition same_files (w w' : World) : Prop := files w' = files w.

(** A channel that has a session keeps having one. *)
Definition session_kept (channelId : jsstring) (w w' : World) : Prop :=
  session_of channelId w <> None -> session_of channelId w' <> None.

(** A session in the sample workspace for a second project. *)
Definition session2 : Store.ChannelData :=
  {| Store.projectPath := lit "/srv/site";
     Store.cursorChatId := lit "chat-2";
     Store.createdAt := lit "2025-02-01T00:00:00.000Z" |}.

(** Slack accepts every post; every path exists; the agent CLI answers
    the creation of a chat with the identifier [chat-9]. *)
Definition env_creates : Env := {|
  slackBotUserId := lit "U1";
  baseProjectPath := lit "/srv";
  conversations_list := fun _ =>
    Returns (Some [ {| Slack.api_id := Some Scenario.C1;
                       Slack.api_name := Some (lit "general");
                       Slack.api_is_member := Some true |};
                    {| Slack.api_id := Some Scenario.C2;
                       Slack.api_name := Some (lit "random");
                       Slack.api_is_member := Some true |};
                    {| Slack.api_id := Some (lit "C3");
                       Slack.api_name := Some (lit "private");
                       Slack.api_is_member := Some false |} ]);
  conversations_history := fun _ _ _ =>
    Returns (Some [Scenario.api_message "101.0" "hello"]);
  chat_postMessage := fun _ _ _ => Returns (Some (lit "300.0"));
  chat_update := fun _ _ _ _ => Returns tt;
  reactions_add := fun _ _ _ _ => Returns tt;
  reactions_remove := fun _ _ _ _ => Returns tt;
  fs_existsSync := fun _ _ => true;
  fs_readdirSync := fun _ _ => Returns [];
  git_diff := fun _ _ => Returns [];
  agent_process := fun _ => ProcClose (Some 0%Z) (lit " chat-9 ") [];
  Date_toISOString := fun _ => lit "2025-03-01T00:00:00.000Z"
|}.

End Observe.

(** * Properties *)

(** ** The parser never runs out of its counter *)

Module JsonFacts.

Lemma skip_ws_length (s : jsstring) :
  (List.length (skip_ws s) <= List.length s)%nat.
Proof.
  induction s as [|c s IH]; simpl; [lia|].
  destruct (isJsonSpace c); simpl; lia.
Qed.

Lemma stripPrefix_length (p s r : jsstring) :
  stripPrefix p s = Some r ->
  List.length s = (List.length p + List.length r)%nat.
Proof.
  revert s; induction p as [|a p IH]; intros [|c s]; simpl; try congruence.
  - intros [= <-]; reflexivity.
  - intros [= <-]; reflexivity.
  - destruct (a =? c); [|discriminate]. intros Hr. rewrite (IH _ Hr). lia.
Qed.

(** A string literal consumes at least its closing quote. *)
Lemma parse_chars_length (n : nat) :
  forall s acc str r,
    (List.length s <= n)%nat ->
    parse_chars s acc = Done str r -> (List.length r < List.length s)%nat.
Proof.
  induction n as [|n IH]; intros [|c s] acc str r Hn; simpl in *;
    try discriminate; try lia.
  destruct (c =? 34).
  { intros [= _ <-]. lia. }
  destruct (c =? 92).
  - destruct s as [|e s1]; [discriminate|].
    destruct (e =? 117).
    + destruct s1 as [|h1 [|h2 [|h3 [|h4 s2]]]]; try discriminate.
      destruct (hex4 h1 h2 h3 h4); [|discriminate].
      intros Hp. apply IH in Hp; simpl in *; lia.
    + destruct (escape_char e); [|discriminate].
      intros Hp. apply IH in Hp; simpl in *; lia.
  - destruct (c <? 32); [discriminate|].
    intros Hp. apply IH in Hp; simpl in *; lia.
Qed.

Lemma span_digits_length (s : jsstring) :
  forall ds r, span_digits s = (ds, r) ->
               List.length s = (List.length ds + List.length r)%nat.
Proof.
  induction s as [|c s IH]; simpl; intros ds r.
  - intros [= <- <-]; reflexivity.
  - destruct (isDigit c).
    + destruct (span_digits s) as [ds' r'] eqn:E.
      intros [= <- <-]. simpl. rewrite (IH _ _ eq_refl). reflexivity.
    + intros [= <- <-]. reflexivity.
Qed.

Lemma parse_digits_length (s : jsstring) ds r :
  parse_digits s = Done ds r -> (List.length r < List.length s)%nat.
Proof.
  unfold parse_digits. destruct (span_digits s) as [ds' r'] eqn:E.
  apply span_digits_length in E.
  destruct ds' as [|d ds']; [discriminate|].
  intros [= _ <-]. simpl in E. lia.
Qed.

Lemma parse_number_length (s : jsstring) v r :
  parse_number s = Done v r -> (List.length r < List.length s)%nat.
Proof.
  unfold parse_number.
  set (p := match s with
            | c :: t => if c =? 45 then (true, t) else (false, s)
            | [] => (false, s)
            end).
  assert (Hp : (List.length (snd p) <= List.length s)%nat).
  { subst p. destruct s as [|c t]; simpl; [lia|].
    destruct (c =? 45); simpl; lia. }
  destruct p as [neg s0]; simpl in Hp.
  destruct (parse_int s0) as [ip s1| |] eqn:Ei; try discriminate.
  assert (H1 : (List.length s1 < List.length s0)%nat).
  { unfold parse_int in Ei. destruct s0 as [|c t]; [discriminate|].
    destruct (c =? 48).
    - injection Ei as _ <-. simpl; lia.
    - apply parse_digits_length in Ei. exact Ei. }
  destruct (parse_frac s1) as [fp s2| |] eqn:Ef; try discriminate.
  assert (H2 : (List.length s2 <= List.length s1)%nat).
  { unfold parse_frac in Ef. destruct s1 as [|c t].
    - injection Ef as _ <-. lia.
    - destruct (c =? 46).
      + apply parse_digits_length in Ef. simpl; lia.
      + injection Ef as _ <-. lia. }
  destruct (parse_exp s2) as [e s3| |] eqn:Ee; try discriminate.
  assert (H3 : (List.length s3 <= List.length s2)%nat).
  { unfold parse_exp in Ee. destruct s2 as [|c t].
    - injection Ee as _ <-. lia.
    - destruct ((c =? 101) || (c =? 69)).
      + set (q := match t with
                  | sign :: u => if sign =? 43 then (false, u)
                                 else if sign =? 45 then (true, u)
                                 else (false, t)
                  | [] => (false, t)
                  end) in Ee.
        assert (Hq : (List.length (snd q) <= List.length t)%nat).
        { subst q. destruct t as [|sg u]; simpl; [lia|].
          destruct (sg =? 43); simpl; [lia|].
          destruct (sg =? 45); simpl; lia. }
        destruct q as [ng t']; simpl in Hq.
        destruct (parse_digits t') as [ds rest| |] eqn:Ed; try discriminate.
        apply parse_digits_length in Ed. injection Ee as _ <-. simpl; lia.
      + injection Ee as _ <-. lia. }
  intros [= _ <-]. lia.
Qed.

Lemma parse_word_length (s : jsstring) v r :
  parse_word s = Done v r -> (List.length r < List.length s)%nat.
Proof.
  unfold parse_word.
  destruct (stripPrefix (lit "true") s) eqn:E1.
  { intros [= _ <-]. apply stripPrefix_length in E1. simpl in E1. lia. }
  destruct (stripPrefix (lit "false") s) eqn:E2.
  { intros [= _ <-]. apply stripPrefix_length in E2. simpl in E2. lia. }
  destruct (stripPrefix (lit "null") s) eqn:E3.
  { intros [= _ <-]. apply stripPrefix_length in E3. simpl in E3. lia. }
  apply parse_number_length.
Qed.

Lemma parse_word_fuel (s : jsstring) : parse_word s <> OutOfFuel.
Proof.
  unfold parse_word, parse_number, parse_int, parse_frac, parse_exp, parse_digits.
  repeat match goal with
         | |- context [match ?x with _ => _ end] => destruct x
         | |- context [if ?b then _ else _] => destruct b
         end; discriminate.
Qed.

(** Every construct read is shorter than the text it was read from. *)
Lemma parse_length (fuel : nat) :
  (forall s v r, parse_value fuel s = Done v r ->
                 (List.length r < List.length s)%nat)
  /\ (forall s acc v r, parse_elements fuel s acc = Done v r ->
                        (List.length r < List.length s)%nat)
  /\ (forall s acc v r, parse_members fuel s acc = Done v r ->
                        (List.length r < List.length s)%nat).
Proof.
  induction fuel as [|fuel (IHv & IHe & IHm)]; [repeat split; discriminate|].
  repeat split.
  - intros [|c s] v r; simpl; [discriminate|].
    destruct (c =? 34).
    { destruct (parse_chars s []) as [str rest| |] eqn:E; try discriminate.
      intros [= _ <-]. apply (parse_chars_length _ _ _ _ _ (le_n _)) in E. lia. }
    destruct (c =? 91).
    { pose proof (skip_ws_length s) as Hs.
      destruct (skip_ws s) as [|d rest]; [discriminate|].
      destruct (d =? 93).
      - intros [= _ <-]. simpl in Hs. lia.
      - intros Hp. apply IHe in Hp. lia. }
    destruct (c =? 123).
    { pose proof (skip_ws_length s) as Hs.
      destruct (skip_ws s) as [|d rest]; [discriminate|].
      destruct (d =? 125).
      - intros [= _ <-]. simpl in Hs. lia.
      - intros Hp. apply IHm in Hp. lia. }
    apply parse_word_length.
  - intros s acc v r; simpl.
    destruct (parse_value fuel s) as [x rest| |] eqn:E; try discriminate.
    apply IHv in E. pose proof (skip_ws_length rest) as Hs.
    destruct (skip_ws rest) as [|d rest']; [discriminate|].
    destruct (d =? 44).
    { intros Hp. apply IHe in Hp. pose proof (skip_ws_length rest').
      simpl in Hs. lia. }
    destruct (d =? 93); [|discriminate].
    intros [= _ <-]. simpl in Hs. lia.
  - intros [|c s] acc v r; simpl; [discriminate|].
    destruct (c =? 34); [|discriminate].
    destruct (parse_chars s []) as [key rest| |] eqn:E; try discriminate.
    apply (parse_chars_length _ _ _ _ _ (le_n _)) in E.
    pose proof (skip_ws_length rest) as Hs.
    destruct (skip_ws rest) as [|d rest1]; [discriminate|].
    destruct (d =? 58); [|discriminate].
    pose proof (skip_ws_length rest1) as Hs1.
    destruct (parse_value fuel (skip_ws rest1)) as [x rest2| |] eqn:Ev;
      try discriminate.
    apply IHv in Ev. pose proof (skip_ws_length rest2) as Hs2.
    destruct (skip_ws rest2) as [|d' rest3]; [discriminate|].
    destruct (d' =? 44).
    { intros Hp. apply IHm in Hp. pose proof (skip_ws_length rest3).
      simpl in *. lia. }
    destruct (d' =? 125); [|discriminate].
    intros [= _ <-]. simpl in *. lia.
Qed.

(** With a counter above twice the length of the text, no run of the
    parser ends for want of it. *)
Lemma parse_fuel (fuel : nat) :
  (forall s, (2 * List.length s + 1 <= fuel)%nat ->
             parse_value fuel s <> OutOfFuel)
  /\ (forall s acc, (2 * List.length s + 2 <= fuel)%nat ->
                    parse_elements fuel s acc <> OutOfFuel)
  /\ (forall s acc, (2 * List.length s + 2 <= fuel)%nat ->
                    parse_members fuel s acc <> OutOfFuel).
Proof.
  induction fuel as [|fuel (IHv & IHe & IHm)]; [repeat split; intros; lia|].
  repeat split.
  - intros [|c s] Hf; simpl; [discriminate|]. simpl in Hf.
    destruct (c =? 34).
    { destruct (parse_chars s []); discriminate. }
    destruct (c =? 91).
    { pose proof (skip_ws_length s) as Hs.
      destruct (skip_ws s) as [|d rest]; [discriminate|].
      destruct (d =? 93); [discriminate|].
      apply IHe. simpl in *. lia. }
    destruct (c =? 123).
    { pose proof (skip_ws_length s) as Hs.
      destruct (skip_ws s) as [|d rest]; [discriminate|].
      destruct (d =? 125); [discriminate|].
      apply IHm. simpl in *. lia. }
    apply parse_word_fuel.
  - intros s acc Hf; simpl.
    destruct (parse_value fuel s) as [x rest| |] eqn:E; try discriminate.
    + apply (proj1 (parse_length fuel)) in E.
      pose proof (skip_ws_length rest) as Hs.
      destruct (skip_ws rest) as [|d rest']; [discriminate|].
      destruct (d =? 44).
      { apply IHe. pose proof (skip_ws_length rest'). simpl in *. lia. }
      destruct (d =? 93); discriminate.
    + exfalso. revert E. apply IHv. lia.
  - intros [|c s] acc Hf; simpl; [discriminate|]. simpl in Hf.
    destruct (c =? 34); [|discriminate].
    destruct (parse_chars s []) as [key rest| |] eqn:E; try discriminate.
    apply (parse_chars_length _ _ _ _ _ (le_n _)) in E.
    pose proof (skip_ws_length rest) as Hs.
    destruct (skip_ws rest) as [|d rest1]; [discriminate|].
    destruct (d =? 58); [|discriminate].
    pose proof (skip_ws_length rest1) as Hs1.
    destruct (parse_value fuel (skip_ws rest1)) as [x rest2| |] eqn:Ev;
      try discriminate.
    + apply (proj1 (parse_length fuel)) in Ev.
      pose proof (skip_ws_length rest2) as Hs2.
      destruct (skip_ws rest2) as [|d' rest3]; [discriminate|].
      destruct (d' =? 44).
      { apply IHm. pose proof (skip_ws_length rest3). simpl in *. lia. }
      destruct (d' =? 125); discriminate.
    + exfalso. revert Ev. apply IHv. simpl in *. lia.
Qed.

(** [JSON_parse] gives its parser enough: [None] always stands for a
    text outside the grammar. *)
Lemma JSON_parse_fuel (text : jsstring) :
  parse_value (2 * List.length text + 1) (skip_ws text) <> OutOfFuel.
Proof.
  apply (proj1 (parse_fuel _)).
  pose proof (skip_ws_length text). lia.
Qed.

Lemma JSON_parse_None (text : jsstring) :
  JSON_parse text = None <->
  parse_value (2 * List.length text + 1) (skip_ws text) = SyntaxError
  \/ exists v rest,
       parse_value (2 * List.length text + 1) (skip_ws text) = Done v rest
       /\ skip_ws rest <> [].
Proof.
  unfold JSON_parse. pose proof (JSON_parse_fuel text) as Hf.
  destruct (parse_value _ _) as [v rest| |]; [| |congruence].
  - destruct (skip_ws rest) as [|c rest'] eqn:Er; split.
    + discriminate.
    + intros [H|(v' & r' & [= <- <-] & Hne)]; congruence.
    + intros _. right. exists v, rest. rewrite Er. split; [reflexivity|discriminate].
    + reflexivity.
  - split; [intros _; left|]; reflexivity.
Qed.

(** Only a text that opens with a brace is read as an object. *)
Lemma parse_elements_array (fuel : nat) :
  forall s acc v r, parse_elements fuel s acc = Done v r ->
                    exists items, v = JArray items.
Proof.
  induction fuel as [|fuel IH]; intros s acc v r; simpl; [discriminate|].
  destruct (parse_value fuel s) as [x rest| |]; try discriminate.
  destruct (skip_ws rest) as [|d rest']; [discriminate|].
  destruct (d =? 44); [apply IH|].
  destruct (d =? 93); [|discriminate].
  intros [= <- _]. eexists; reflexivity.
Qed.

Lemma parse_word_not_object (s : jsstring) ms r :
  parse_word s <> Done (JObject ms) r.
Proof.
  unfold parse_word, parse_number, parse_int, parse_frac, parse_exp, parse_digits.
  repeat match goal with
         | |- context [match ?x with _ => _ end] => destruct x
         | |- context [if ?b then _ else _] => destruct b
         end; discriminate.
Qed.

Lemma parse_value_object (fuel : nat) (s : jsstring) ms r :
  parse_value fuel s = Done (JObject ms) r -> exists s', s = 123 :: s'.
Proof.
  destruct fuel as [|fuel]; [discriminate|].
  destruct s as [|c s']; simpl; [discriminate|].
  destruct (c =? 34).
  { destruct (parse_chars s' []); discriminate. }
  destruct (c =? 91).
  { destruct (skip_ws s') as [|d rest]; [discriminate|].
    destruct (d =? 93); [discriminate|].
    intros Hp. apply parse_elements_array in Hp. destruct Hp as [items [=]]. }
  destruct (c =? 123) eqn:Ec.
  { apply N.eqb_eq in Ec. subst c. intros _. eexists; reflexivity. }
  intros Hp. exfalso. exact (parse_word_not_object _ _ _ Hp).
Qed.

(** A trimmed text does not start with white space. *)
Lemma trimEnd_head (c : N) (s t : jsstring) (d : N) :
  trimEnd (c :: s) = d :: t -> d = c.
Proof.
  simpl. destruct (trimEnd s); [destruct (isSpace c)|]; congruence.
Qed.

Lemma trimStart_head (s t : jsstring) (c : N) :
  trimStart s = c :: t -> isSpace c = false.
Proof.
  induction s as [|x s IH]; simpl; [discriminate|].
  destruct (isSpace x) eqn:Ex; [exact IH|].
  intros [= -> _]. exact Ex.
Qed.

Lemma trim_head (s t : jsstring) (c : N) :
  trim s = c :: t -> isSpace c = false.
Proof.
  unfold trim. destruct (trimStart s) as [|x u] eqn:E; [discriminate|].
  intros Ht. apply trimEnd_head in Ht. subst c.
  exact (trimStart_head _ _ _ E).
Qed.

Lemma isJsonSpace_isSpace (c : N) : isJsonSpace c = true -> isSpace c = true.
Proof.
  unfold isJsonSpace, isSpace, isWhiteSpace, isLineTerminator.
  destruct (c =? 32) eqn:E1; [apply N.eqb_eq in E1; subst; reflexivity|].
  destruct (c =? 9) eqn:E2; [apply N.eqb_eq in E2; subst; reflexivity|].
  destruct (c =? 10) eqn:E3; [apply N.eqb_eq in E3; subst; reflexivity|].
  destruct (c =? 13) eqn:E4; [apply N.eqb_eq in E4; subst; reflexivity|].
  discriminate.
Qed.

(** A trimmed output that [JSON.parse] reads as an object starts with a
    brace. *)
Lemma parsed_object_starts_with_brace (s : jsstring) ms :
  JSON_parse (trim s) = Some (JObject ms) ->
  startsWith (lit "{") (trim s) = true.
Proof.
  unfold JSON_parse.
  destruct (parse_value _ _) as [v rest| |] eqn:E; try discriminate.
  destruct (skip_ws rest); [|discriminate]. intros [= ->].
  assert (Hskip : skip_ws (trim s) = trim s).
  { destruct (trim s) as [|c t] eqn:Et; [reflexivity|]. simpl.
    destruct (isJsonSpace c) eqn:Ec; [|reflexivity].
    apply isJsonSpace_isSpace in Ec. rewrite (trim_head _ _ _ Et) in Ec.
    discriminate. }
  rewrite Hskip in E. apply parse_value_object in E. destruct E as [s' ->].
  reflexivity.
Qed.

End JsonFacts.

(** ** The library functions on small inputs *)

Module Samples.
Import Regex Scenario.

Example trim_both_ends :
  trim (lit "  two words   ") = lit "two words" /\ trim [10; 9; 32] = [].
Proof. split; reflexivity. Qed.

Example retry_patterns :
  map (@isRetryable)
      [lit "RESOURCE_EXHAUSTED"; lit "Rate limit hit"; lit "rate-limit";
       lit "ratelimit"; lit "rate  limit"; lit "429 Too Many Requests";
       lit "503 Service Unavailable"; lit "Timeout after 300s";
       lit "not authenticated"; []]
  = [true; true; true; true; false; true; true; true; false; false].
Proof. reflexivity. Qed.

Example new_command :
  match_new (lit "/new /srv/app") = Some (lit "/srv/app")
  /\ match_new (lit "/new   two words") = Some (lit "two words")
  /\ match_new (lit "/new") = None
  /\ match_new (lit "/newer x") = None
  /\ match_new (lit "/new a" ++ [10] ++ lit "b") = None
  /\ match_new (lit " /new a") = None.
Proof. repeat split. Qed.

Example commands :
  test_command (lit "/projects") (lit "/projects") = true
  /\ test_command (lit "/projects") (lit "/projects  ") = true
  /\ test_command (lit "/projects") (lit "/projects x") = false
  /\ test_command (lit "/diff") (lit "/different") = false.
Proof. repeat split. Qed.

Example mention_removed :
  Slack.removeBotMention (lit "U1") (lit "<@U1> /new app <@U1>")
  = lit "/new app".
Proof. reflexivity. Qed.

Example parse_response :
  JSON_parse quota_response
  = Some (JObject [(lit "is_error", JBool true);
                   (lit "result", JString (lit "resource_exhausted: quota"))]).
Proof. reflexivity. Qed.

Example parse_values :
  JSON_parse (lit " [1, -2.50e3, true, null, {}] ")
  = Some (JArray [JNumber false 1 0; JNumber true 250 1; JBool true; JNull;
                  JObject []])
  /\ JSON_parse (quoted "aA\n") = Some (JString [97; 65; 10])
  /\ JSON_parse (lit "01") = None
  /\ JSON_parse (lit "[1,]") = None
  /\ JSON_parse (lit "{a:1}") = None
  /\ JSON_parse (lit "plain text") = None
  /\ JSON_parse [] = None.
Proof. repeat split. Qed.

Example repeated_member_last_wins :
  get_field (JObject [(lit "result", JNull); (lit "result", JBool true)])
            (lit "result")
  = Some (JBool true).
Proof. reflexivity. Qed.

Example zero_is_falsy :
  truthy (JNumber true 0 0) = false
  /\ truthy (JNumber false 1 (-400)) = false
  /\ truthy (JNumber false 5 (-324)) = true
  /\ truthy (JString []) = false
  /\ truthy (JArray []) = true.
Proof. repeat split. Qed.

(** What [sendPromptOnce] makes of some outputs of a process that exits
    with code 0. *)
Example attempts_settled :
  map (fun out => @sendPromptOnce posix (ProcClose (Some 0%Z) out []))
      [ok_response; lit "null"; lit "42"; lit "  "; lit "{broken"]
  = [Resolved (JString (lit "done"));
     Resolved (JString (lit "null"));
     Resolved JUndefined;
     Rejected (Error (lit "Empty response from Cursor"));
     Resolved (JString (lit "{broken"))].
Proof. reflexivity. Qed.

End Samples.

(** ** The retry protocol of [sendPrompt] *)

Module RetryProtocol.
Section WithPlatform.
Context `{Platform}.
Variables chatId prompt : jsstring.

Lemma fails_retryable_inv (ev : ProcEvent) :
  fails_retryable ev = true ->
  exists e, sendPromptOnce ev = Rejected e /\ retryable e = Some true.
Proof.
  unfold fails_retryable.
  destruct (sendPromptOnce ev) as [v|e]; [discriminate|].
  destruct (retryable e) as [[|]|] eqn:Er; try discriminate.
  intros _. exists e. split; [reflexivity|exact Er].
Qed.

Lemma succeeds_inv (ev : ProcEvent) :
  succeeds ev = true -> exists v, sendPromptOnce ev = Resolved v.
Proof.
  unfold succeeds. destruct (sendPromptOnce ev) as [v|e]; [|discriminate].
  intros _. exists v. reflexivity.
Qed.

Lemma attempts_from_S (maxRetries : Z) (agent : nat -> ProcEvent)
      (r a : nat) (lastError : option JsError) :
  attempts_from chatId prompt maxRetries agent (S r) a lastError
  = preceded
      ((if (0 <? Z.of_nat a)%Z then [Sleep (backoff a)] else [])
       ++ [Spawn chatId prompt])
      match sendPromptOnce (agent a) with
      | Resolved v => {| effects := []; outcome := Resolved v |}
      | Rejected err =>
          if negb match retryable err with Some true => true | _ => false end
             || (maxRetries <=? Z.of_nat a)%Z
          then {| effects := []; outcome := Rejected err |}
          else attempts_from chatId prompt maxRetries agent r (S a) (Some err)
      end.
Proof. reflexivity. Qed.

Lemma spawn_count_app (es es' : list Effect) :
  spawn_count (es ++ es') = (spawn_count es + spawn_count es')%nat.
Proof.
  induction es as [|[c p|ms] es IH]; simpl; [reflexivity| |]; rewrite IH; reflexivity.
Qed.

Lemma spawn_count_schedule (a n : nat) :
  spawn_count (schedule chatId prompt a n) = n.
Proof.
  revert a; induction n as [|n IH]; intros a; simpl; [reflexivity|].
  rewrite spawn_count_app. simpl. rewrite IH.
  destruct (0 <? Z.of_nat a)%Z; reflexivity.
Qed.

Lemma backoff_delay (a : nat) :
  (0 < a)%nat -> backoff a = delay_before_attempt a.
Proof.
  intros Ha. unfold delay_before_attempt, backoff.
  destruct a; [lia|reflexivity].
Qed.

Lemma delays_schedule (a n : nat) :
  delays_before 0 (schedule chatId prompt a n)
  = map delay_before_attempt (seq a n).
Proof.
  revert a; induction n as [|n IH]; intros a; simpl; [reflexivity|].
  destruct a as [|a]; simpl.
  - rewrite IH. reflexivity.
  - rewrite IH. f_equal.
Qed.

Lemma succeeds_not_retryable (ev : ProcEvent) :
  succeeds ev = true -> fails_retryable ev = false.
Proof.
  unfold succeeds, fails_retryable.
  destruct (sendPromptOnce ev); [reflexivity|discriminate].
Qed.

Lemma not_retryable_stops (ev : ProcEvent) (maxRetries : Z) (a : nat)
      (next : JsError -> Run) :
  fails_retryable ev = false ->
  match sendPromptOnce ev with
  | Resolved v => {| effects := []; outcome := Resolved v |}
  | Rejected err =>
      if negb match retryable err with Some true => true | _ => false end
         || (maxRetries <=? Z.of_nat a)%Z
      then {| effects := []; outcome := Rejected err |}
      else next err
  end
  = {| effects := []; outcome := sendPromptOnce ev |}.
Proof.
  unfold fails_retryable.
  destruct (sendPromptOnce ev) as [v|err]; [reflexivity|].
  destruct (retryable err) as [[|]|]; [discriminate| |]; reflexivity.
Qed.

(** The loop, when the attempts from [a] on fail in a way that is retried
    until attempt [a + j], which settles the run if it is made: the
    attempts are made on schedule, and the run ends as its last attempt
    does. *)
Lemma attempts_from_run (m : nat) (agent : nat -> ProcEvent) :
  forall (r a : nat) (lastError : option JsError) (j : nat),
    (a + S r = m + 1)%nat ->
    (forall k, (a <= k < a + j)%nat -> fails_retryable (agent k) = true) ->
    ((a + j <= m)%nat -> fails_retryable (agent (a + j)%nat) = false) ->
    attempts_from chatId prompt (Z.of_nat m) agent (S r) a lastError
    = {| effects := schedule chatId prompt a (Nat.min (j + 1) (S r));
         outcome := sendPromptOnce (agent (a + Nat.min j r)%nat) |}.
Proof.
  induction r as [|r IH]; intros a lastError j Har Hfail Hstop;
    rewrite attempts_from_S; unfold preceded.
  - (* the last attempt of the budget *)
    replace (Nat.min (j + 1) 1) with 1%nat by lia.
    rewrite Nat.min_0_r. replace (a + 0)%nat with a by lia.
    assert (Hm : (Z.of_nat m <=? Z.of_nat a)%Z = true) by (apply Z.leb_le; lia).
    rewrite Hm.
    destruct (sendPromptOnce (agent a)) as [v|err]; cbn [effects outcome schedule].
    + rewrite !app_nil_r. reflexivity.
    + rewrite orb_true_r. cbn [effects outcome]. rewrite !app_nil_r. reflexivity.
  - destruct j as [|j].
    + (* attempt [a] settles the run *)
      replace (a + 0)%nat with a in Hstop by lia.
      rewrite (not_retryable_stops _ _ _
                 (fun err => attempts_from chatId prompt (Z.of_nat m) agent
                               (S r) (S a) (Some err))
                 (Hstop ltac:(lia))).
      cbn [effects outcome Nat.min Nat.add schedule].
      replace (a + 0)%nat with a by lia. rewrite !app_nil_r. reflexivity.
    + (* attempt [a] is retried *)
      destruct (fails_retryable_inv _ (Hfail a ltac:(lia))) as (e & -> & ->).
      assert (Hm : (Z.of_nat m <=? Z.of_nat a)%Z = false) by (apply Z.leb_gt; lia).
      rewrite Hm. cbn [negb orb].
      rewrite (IH (S a) (Some e) j); [| lia | |].
      * cbn [effects outcome].
        replace (Nat.min (S j + 1) (S (S r))) with (S (Nat.min (j + 1) (S r)))
          by lia.
        replace (a + Nat.min (S j) (S r))%nat with (S a + Nat.min j r)%nat by lia.
        cbn [schedule]. rewrite <- app_assoc. reflexivity.
      * intros k Hk. apply Hfail. lia.
      * intros Hle. replace (S a + j)%nat with (a + S j)%nat by lia.
        apply Hstop. lia.
Qed.

Lemma spawn_count_pre (a : nat) :
  spawn_count ((if (0 <? Z.of_nat a)%Z then [Sleep (backoff a)] else [])
               ++ [Spawn chatId prompt]) = 1%nat.
Proof. destruct (0 <? Z.of_nat a)%Z; reflexivity. Qed.

(** A rejected run ends with the error of the last attempt it made. *)
Lemma attempts_from_rejected (m : nat) (agent : nat -> ProcEvent) :
  forall (r a : nat) (lastError : option JsError) (e : JsError),
    (a + S r = m + 1)%nat ->
    outcome (attempts_from chatId prompt (Z.of_nat m) agent (S r) a lastError) = Rejected e ->
    exists n,
      spawn_count (effects (attempts_from chatId prompt (Z.of_nat m) agent (S r) a lastError)) = S n
      /\ sendPromptOnce (agent (a + n)%nat) = Rejected e
      /\ (fails_retryable (agent (a + n)%nat) = false \/ (a + n)%nat = m).
Proof.
  induction r as [|r IH]; intros a lastError e Har;
    rewrite attempts_from_S; unfold preceded; cbn [outcome effects];
    rewrite spawn_count_app, spawn_count_pre;
    destruct (sendPromptOnce (agent a)) as [v|err] eqn:E;
    cbn [outcome effects]; try discriminate.
  - assert (Hm : (Z.of_nat m <=? Z.of_nat a)%Z = true) by (apply Z.leb_le; lia).
    rewrite Hm, orb_true_r. cbn [outcome effects spawn_count]. intros [= ->].
    exists 0%nat. replace (a + 0)%nat with a by lia.
    split; [reflexivity|]. split; [exact E|]. right; lia.
  - assert (Hm : (Z.of_nat m <=? Z.of_nat a)%Z = false) by (apply Z.leb_gt; lia).
    rewrite Hm, orb_false_r.
    destruct (retryable err) as [[|]|] eqn:Er; cbn [negb].
    + intros Hout.
      destruct (IH (S a) (Some err) e ltac:(lia) Hout) as (n & Hn & Hlast & Hwhy).
      exists (S n). rewrite Hn.
      replace (a + S n)%nat with (S a + n)%nat by lia.
      split; [reflexivity|]. split; [exact Hlast|exact Hwhy].
    + cbn [outcome effects spawn_count]. intros [= ->].
      exists 0%nat. replace (a + 0)%nat with a by lia.
      split; [reflexivity|]. split; [exact E|].
      left. unfold fails_retryable. rewrite E, Er. reflexivity.
    + cbn [outcome effects spawn_count]. intros [= ->].
      exists 0%nat. replace (a + 0)%nat with a by lia.
      split; [reflexivity|]. split; [exact E|].
      left. unfold fails_retryable. rewrite E, Er. reflexivity.
Qed.

(** C3.  With [maxRetries = 3], when the attempts fail with a retryable
    failure until a first success at position [j] counted from 0 (so the
    first success, if it comes, is attempt number [j + 1]; [j > 3] stands
    for no success among the four attempts), [sendPrompt] makes
    [min (j + 1) (maxRetries + 1)] attempts, and before attempt [k],
    counted from 0, it sleeps 0 ms for [k = 0] and
    [min (1000 * 2 ^ (k - 1)) 30000] ms for [k >= 1]: 0, 1000, 2000 and
    4000 ms for the four possible attempts. *)
Theorem sendPrompt_attempts_and_delays (agent : nat -> ProcEvent) (j : nat) :
  (forall k, (k < j)%nat -> fails_retryable (agent k) = true) ->
  ((j <= 3)%nat -> succeeds (agent j) = true) ->
  let r := sendPrompt chatId prompt 3 agent in
  attempts_made r = Nat.min (j + 1) (3 + 1)
  /\ attempt_delays r = firstn (attempts_made r) [0; 1000; 2000; 4000]%Z
  /\ forall k, (k < attempts_made r)%nat ->
       nth_error (attempt_delays r) k
       = Some (if (k =? 0)%nat then 0
               else Z.min (1000 * 2 ^ (Z.of_nat k - 1)) 30000)%Z.
Proof.
  intros Hfail Hok r.
  assert (He : effects r = schedule chatId prompt 0 (Nat.min (j + 1) 4)).
  { subst r.
    change (sendPrompt chatId prompt 3 agent)
      with (attempts_from chatId prompt (Z.of_nat 3) agent 4 0 None).
    rewrite (attempts_from_run 3 agent 3 0 None j); [reflexivity|reflexivity| |].
    - intros k Hk. apply Hfail. lia.
    - intros Hj. apply succeeds_not_retryable, Hok. lia. }
  assert (Hn : attempts_made r = Nat.min (j + 1) 4).
  { unfold attempts_made. rewrite He. apply spawn_count_schedule. }
  assert (Hd : attempt_delays r
               = map delay_before_attempt (seq 0 (Nat.min (j + 1) 4))).
  { unfold attempt_delays. rewrite He. apply delays_schedule. }
  rewrite Hd, Hn. split; [reflexivity|].
  assert (Hcases : Nat.min (j + 1) 4 = 1%nat \/ Nat.min (j + 1) 4 = 2%nat
                   \/ Nat.min (j + 1) 4 = 3%nat \/ Nat.min (j + 1) 4 = 4%nat)
    by lia.
  destruct Hcases as [-> | [-> | [-> | ->]]];
    (split; [reflexivity|]);
    intros k Hk;
    repeat (destruct k as [|k]; [reflexivity|]); lia.
Qed.

(** C6.  With [maxRetries = 3], when the first attempt fails with a
    failure that is not classified retryable, exactly one process is
    spawned, nothing is slept, and that failure is what [sendPrompt]
    raises.  More generally, for any retry budget: when the attempts
    before attempt [k] fail in a way that is retried and attempt [k]
    fails with an error that is not retryable, or is the last attempt of
    the budget, [sendPrompt] makes [k + 1] attempts and raises that last
    error. *)
Theorem nonretryable_failure_raised_at_once (agent : nat -> ProcEvent) :
  (forall e,
     sendPromptOnce (agent 0%nat) = Rejected e ->
     retryable e <> Some true ->
     sendPrompt chatId prompt 3 agent
     = {| effects := [Spawn chatId prompt]; outcome := Rejected e |})
  /\ (forall (maxRetries k : nat) e,
        (k <= maxRetries)%nat ->
        (forall i, (i < k)%nat -> fails_retryable (agent i) = true) ->
        sendPromptOnce (agent k) = Rejected e ->
        retryable e <> Some true \/ k = maxRetries ->
        let r := sendPrompt chatId prompt (Z.of_nat maxRetries) agent in
        outcome r = Rejected e /\ attempts_made r = S k).
Proof.
  split.
  - intros e He Hnon. unfold sendPrompt.
    change (Z.to_nat (3 + 1)) with 4%nat.
    rewrite attempts_from_S, He.
    destruct (retryable e) as [[|]|]; [congruence| |]; reflexivity.
  - intros m k e Hk Hbefore He Hwhy r. subst r.
    unfold sendPrompt, attempts_made.
    replace (Z.to_nat (Z.of_nat m + 1)) with (S m) by lia.
    destruct (fails_retryable (agent k)) eqn:Hfk.
    + (* a retryable error at the end of the budget *)
      assert (k = m) as ->.
      { destruct Hwhy as [Hnon|Hkm]; [|exact Hkm]. exfalso.
        unfold fails_retryable in Hfk. rewrite He in Hfk.
        destruct (retryable e) as [[|]|]; congruence. }
      rewrite (attempts_from_run m agent m 0 None (S m));
        [|lia| |intros; lia].
      * cbn [outcome effects]. rewrite spawn_count_schedule.
        replace (0 + Nat.min (S m) m)%nat with m by lia.
        split; [exact He|lia].
      * intros i Hi. destruct (Nat.eq_dec i m) as [->|Hne]; [exact Hfk|].
        apply Hbefore. lia.
    + rewrite (attempts_from_run m agent m 0 None k); [|lia| |].
      * cbn [outcome effects]. rewrite spawn_count_schedule.
        replace (0 + Nat.min k m)%nat with k by lia.
        split; [exact He|lia].
      * intros i Hi. apply Hbefore. lia.
      * intros _. exact Hfk.
Qed.

Lemma new_Error_retryable (x : JsValue) (err : JsError) :
  new_Error x = Some err -> retryable err = None.
Proof.
  unfold new_Error.
  destruct x; try (intros [= <-]; reflexivity);
    (destruct (ToString _); [intros [= <-]; reflexivity|discriminate]).
Qed.

(** No error that [sendPromptOnce] derives from a process that exited
    with code 0 and passed the error-text check carries the [retryable]
    property: [sendPrompt] retries none of them. *)
Lemma structured_error_unclassified (stdout stderr : jsstring) (e : JsError) :
  error_text (trim stdout) = false ->
  sendPromptOnce (ProcClose (Some 0%Z) stdout stderr) = Rejected e ->
  retryable e = None.
Proof.
  unfold error_text, sendPromptOnce. intros ->.
  destruct (try_block (trim stdout)) as [settled|] eqn:Et.
  - intros ->. revert Et. unfold try_block.
    destruct (JSON_parse (trim stdout)) as [response|]; [|discriminate].
    cbn [mbind option_bind].
    destruct (get_field response (lit "is_error")) as [is_error|];
      [|discriminate].
    cbn [mbind option_bind].
    destruct (truthy is_error);
      (destruct (get_field response (lit "result")) as [result|];
       [|discriminate]); cbn [mbind option_bind]; [|discriminate].
    destruct (new_Error result) as [err|] eqn:En; [|discriminate].
    cbn [mbind option_bind]. intros [= <-].
    exact (new_Error_retryable _ _ En).
  - unfold catch_block. destruct (nonEmpty (trim stdout)); [discriminate|].
    intros [= <-]. reflexivity.
Qed.

(** A text outside the JSON grammar makes the [try] block throw. *)
Lemma try_block_syntax_error (output : jsstring) :
  JSON_parse output = None -> try_block output = None.
Proof. unfold try_block. intros ->. reflexivity. Qed.

(** Every structured response with the error flag set, printed by a
    process that exits with code 0, is rejected with the embedded text
    and without the [retryable] property, whatever the text; as a first
    attempt it is also the last. *)
Lemma structured_error_never_retried
      (stdout stderr : jsstring) ms (flag : JsValue) (text : jsstring)
      (agent : nat -> ProcEvent) :
  JSON_parse (trim stdout) = Some (JObject ms) ->
  get_field (JObject ms) (lit "is_error") = Some flag ->
  truthy flag = true ->
  get_field (JObject ms) (lit "result") = Some (JString text) ->
  agent 0%nat = ProcClose (Some 0%Z) stdout stderr ->
  sendPromptOnce (agent 0%nat) = Rejected (Error text)
  /\ sendPrompt chatId prompt 3 agent
     = {| effects := [Spawn chatId prompt];
          outcome := Rejected (Error text) |}.
Proof.
  intros Hparse Hflag Htruthy Hresult Hagent.
  assert (Honce : sendPromptOnce (agent 0%nat) = Rejected (Error text)).
  { rewrite Hagent. unfold sendPromptOnce.
    rewrite (JsonFacts.parsed_object_starts_with_brace _ _ Hparse).
    rewrite andb_false_r. unfold try_block. rewrite Hparse.
    cbn [mbind option_bind]. rewrite Hflag. cbn [mbind option_bind].
    rewrite Htruthy, Hresult. reflexivity. }
  split; [exact Honce|].
  unfold sendPrompt. change (Z.to_nat (3 + 1)) with 4%nat.
  rewrite attempts_from_S, Honce. reflexivity.
Qed.

(** C8.  A process whose trimmed output contains "error" in any letter
    case and does not start with an opening brace rejects the attempt
    with that output as the message, whatever the exit code, zero
    included. *)
Theorem error_text_output_rejected (code : option Z) (stdout stderr : jsstring) :
  includes (lit "error") (toLowerCase (trim stdout)) = true ->
  startsWith (lit "{") (trim stdout) = false ->
  sendPromptOnce (ProcClose code stdout stderr)
  = Rejected {| message := trim stdout;
                retryable := Some (isRetryable (trim stdout ++ stderr)) |}.
Proof.
  intros Hinc Hbrace. unfold sendPromptOnce.
  rewrite Hinc, Hbrace. reflexivity.
Qed.

(** C2, as amended.  For a process that exits with code 0 and whose
    trimmed output passes the error-text check: when the output cannot
    be parsed as a structured response (the [try] block throws, as it
    does when [JSON.parse] throws), the attempt resolves with the raw
    trimmed text if that is not empty, and is rejected, with "Empty
    response from Cursor", only if it is empty. *)
Theorem lenient_fallback_after_checks (stdout stderr : jsstring) :
  error_text (trim stdout) = false ->
  try_block (trim stdout) = None ->
  sendPromptOnce (ProcClose (Some 0%Z) stdout stderr)
  = if nonEmpty (trim stdout)
    then Resolved (JString (trim stdout))
    else Rejected (Error (lit "Empty response from Cursor")).
Proof.
  unfold error_text, sendPromptOnce. intros -> ->. reflexivity.
Qed.

End WithPlatform.

(** C3 at an agent that is rate limited twice and then answers: three
    attempts, after 0, 1000 and 2000 ms. *)
Lemma sendPrompt_attempts_and_delays_witness :
  let r := @sendPrompt Scenario.posix Scenario.chat Scenario.question 3
             Scenario.agent_recovers in
  attempts_made r = 3%nat /\ attempt_delays r = [0; 1000; 2000]%Z.
Proof.
  pose proof (@sendPrompt_attempts_and_delays Scenario.posix Scenario.chat
                Scenario.question Scenario.agent_recovers 2) as W.
  intros r.
  destruct W as (Hn & Hd & _).
  - intros k Hk. destruct k as [|[|k]]; [reflexivity|reflexivity|lia].
  - intros _. reflexivity.
  - fold r in Hn, Hd. rewrite Hd, Hn. split; reflexivity.
Defined.

(** C6 at an agent that is not logged in: one attempt, no sleep. *)
Lemma nonretryable_failure_raised_at_once_witness :
  let denied := {| message := lit "not authenticated";
                   retryable := Some false |} in
  let r := @sendPrompt Scenario.posix Scenario.chat Scenario.question 3
             Scenario.agent_denied in
  r = {| effects := [Spawn Scenario.chat Scenario.question];
         outcome := Rejected denied |}
  /\ outcome r = Rejected denied /\ attempts_made r = 1%nat.
Proof.
  intros denied r.
  destruct (@nonretryable_failure_raised_at_once Scenario.posix Scenario.chat
              Scenario.question Scenario.agent_denied) as [Hfirst Hlast].
  split.
  - apply Hfirst; [reflexivity|discriminate].
  - apply (Hlast 3%nat 0%nat denied); [lia|intros i Hi; lia|reflexivity|].
    left. discriminate.
Defined.

(** A budget used up: an agent that always times out is tried four
    times, after 0, 1000, 2000 and 4000 ms, and the last error is
    raised. *)
Example exhausted_budget :
  let r := @sendPrompt Scenario.posix Scenario.chat Scenario.question 3
             Scenario.agent_timeout in
  attempts_made r = 4%nat
  /\ attempt_delays r = [0; 1000; 2000; 4000]%Z
  /\ outcome r = Rejected {| message := lit "timeout";
                             retryable := Some true |}.
Proof. vm_compute. repeat split. Qed.

(** C8 at a process that prints an error line and exits with code 0. *)
Lemma error_text_output_rejected_witness :
  @sendPromptOnce Scenario.posix
    (ProcClose (Some 0%Z) (lit "Error: workspace not found ") [])
  = Rejected {| message := lit "Error: workspace not found";
                retryable := Some false |}.
Proof.
  apply (@error_text_output_rejected Scenario.posix (Some 0%Z)
           (lit "Error: workspace not found ") []); reflexivity.
Defined.

(** C2 as stated fails: an unparsable, non-empty output is rejected when
    it trips the error-text check, and when the exit code is not 0. *)
Lemma lenient_fallback_counterexample :
  (JSON_parse (trim (lit "Error: workspace not found ")) = None
   /\ @try_block Scenario.posix (trim (lit "Error: workspace not found "))
      = None
   /\ nonEmpty (trim (lit "Error: workspace not found ")) = true
   /\ @sendPromptOnce Scenario.posix
        (ProcClose (Some 0%Z) (lit "Error: workspace not found ") [])
      = Rejected {| message := lit "Error: workspace not found";
                    retryable := Some false |})
  /\ (JSON_parse (trim (lit "Segmentation fault")) = None
      /\ @try_block Scenario.posix (trim (lit "Segmentation fault")) = None
      /\ nonEmpty (trim (lit "Segmentation fault")) = true
      /\ @sendPromptOnce Scenario.posix
           (ProcClose (Some 139%Z) (lit "Segmentation fault") [])
         = Rejected {| message := lit "Segmentation fault";
                       retryable := Some false |}).
Proof. vm_compute. repeat split. Qed.

(** C2 as amended, at a process that prints plain text and exits 0. *)
Lemma lenient_fallback_after_checks_witness :
  @sendPromptOnce Scenario.posix
    (ProcClose (Some 0%Z) (lit "  All tests pass. ") [])
  = Resolved (JString (lit "All tests pass.")).
Proof.
  apply (@lenient_fallback_after_checks Scenario.posix
           (lit "  All tests pass. ") []); reflexivity.
Defined.

(** C1 at the response
    [{"is_error":true,"result":"resource_exhausted: quota"}] printed by a
    process that exits with code 0: the text matches a retry pattern, yet
    the error carries no [retryable] property and the only attempt made
    is the first. *)
Theorem embedded_quota_error_not_retried :
  isRetryable (lit "resource_exhausted: quota") = true
  /\ @sendPromptOnce Scenario.posix (Scenario.agent_quota 0)
     = Rejected {| message := lit "resource_exhausted: quota";
                   retryable := None |}
  /\ @sendPrompt Scenario.posix Scenario.chat Scenario.question 3
       Scenario.agent_quota
     = {| effects := [Spawn Scenario.chat Scenario.question];
          outcome := Rejected (Error (lit "resource_exhausted: quota")) |}.
Proof. vm_compute. repeat split. Qed.


End RetryProtocol.

(** ** The session store *)

Module StoreFacts.
Import Store.

Lemma getLastSeenTs_set (c ts : jsstring) (fs : Files) :
  getLastSeenTs c (setLastSeenTs c ts fs) = Some ts.
Proof.
  unfold getLastSeenTs, setLastSeenTs, loadPollState, savePollState; simpl.
  destruct (stateFile fs !! c) eqn:E.
  - rewrite lookup_alter_eq, E. reflexivity.
  - rewrite lookup_insert_eq. reflexivity.
Qed.

Lemma stateFile_set_other (c c' ts : jsstring) (fs : Files) :
  c' <> c ->
  stateFile (setLastSeenTs c' ts fs) !! c = stateFile fs !! c.
Proof.
  intros Hne. unfold setLastSeenTs, loadPollState, savePollState; simpl.
  destruct (stateFile fs !! c').
  - apply lookup_alter_ne. exact Hne.
  - apply lookup_insert_ne. exact Hne.
Qed.

(** C10.  [setLastSeenTs] (advanceCursor) and [saveChannelData]
    (putSession) for a channel [c'] leave the stored cursor and the
    stored session record of every other channel [c] as they were. *)
Theorem other_channel_untouched
        (c c' ts : jsstring) (data : ChannelData) (fs : Files) :
  c' <> c ->
  (getLastSeenTs c (setLastSeenTs c' ts fs) = getLastSeenTs c fs
   /\ loadChannelData c (setLastSeenTs c' ts fs) = loadChannelData c fs)
  /\ (getLastSeenTs c (saveChannelData c' data fs) = getLastSeenTs c fs
      /\ loadChannelData c (saveChannelData c' data fs) = loadChannelData c fs).
Proof.
  intros Hne. repeat split.
  - unfold getLastSeenTs, loadPollState.
    rewrite (stateFile_set_other c c' ts fs Hne). reflexivity.
  - unfold loadChannelData, saveChannelData; simpl.
    apply lookup_insert_ne. exact Hne.
Qed.

(** C10 in the sample workspace: writing for [C2] leaves [C1] alone. *)
Lemma other_channel_untouched_witness :
  (getLastSeenTs Scenario.C1
     (setLastSeenTs Scenario.C2 (lit "7.0") Scenario.files0)
   = getLastSeenTs Scenario.C1 Scenario.files0
   /\ loadChannelData Scenario.C1
        (setLastSeenTs Scenario.C2 (lit "7.0") Scenario.files0)
      = loadChannelData Scenario.C1 Scenario.files0)
  /\ (getLastSeenTs Scenario.C1
        (saveChannelData Scenario.C2 Scenario.session1 Scenario.files0)
      = getLastSeenTs Scenario.C1 Scenario.files0
      /\ loadChannelData Scenario.C1
           (saveChannelData Scenario.C2 Scenario.session1 Scenario.files0)
         = loadChannelData Scenario.C1 Scenario.files0).
Proof.
  apply (other_channel_untouched Scenario.C1 Scenario.C2 (lit "7.0")
           Scenario.session1 Scenario.files0).
  discriminate.
Defined.

End StoreFacts.

(** ** The poll loop and the command handlers *)

Module PollLoop.
Import Bot.

Create HintDb frame.

Section Frame.
Context `{Platform}.
Variable env : Env.

Lemma handler_frame_refl (w : World) : handler_frame w w.
Proof. split; reflexivity. Qed.

Lemma handler_frame_trans (a b c : World) :
  handler_frame a b -> handler_frame b c -> handler_frame a c.
Proof. intros [A1 A2] [B1 B2]. split; congruence. Qed.

Lemma keeps_ret {A} (a : A) : keeps handler_frame (mret a).
Proof. intros w. apply handler_frame_refl. Qed.

Lemma keeps_throw {A} (e : JsError) : keeps handler_frame (@throw A e).
Proof. intros w. apply handler_frame_refl. Qed.

Lemma keeps_bind {A B} (m : M A) (k : A -> M B) :
  keeps handler_frame m -> (forall a, keeps handler_frame (k a)) ->
  keeps handler_frame (m ≫= k).
Proof.
  intros Hm Hk w. unfold mbind, M_bind. specialize (Hm w).
  destruct (m w) as [[a|e] w1]; simpl in *; [|exact Hm].
  eapply handler_frame_trans; [exact Hm|apply Hk].
Qed.

Lemma keeps_try_catch {A} (m : M A) (h : JsError -> M A) :
  keeps handler_frame m -> (forall e, keeps handler_frame (h e)) ->
  keeps handler_frame (try_catch m h).
Proof.
  intros Hm Hh w. unfold try_catch. specialize (Hm w).
  destruct (m w) as [[a|e] w1]; simpl in *; [exact Hm|].
  eapply handler_frame_trans; [exact Hm|apply Hh].
Qed.

Lemma keeps_call {X} (ev : Event) (answer : nat -> Reply X) :
  keeps handler_frame (call ev answer).
Proof.
  intros w. unfold call.
  destruct (answer _); split; reflexivity.
Qed.

Lemma keeps_read {X} (f : Store.Files -> X) : keeps handler_frame (read f).
Proof. intros w. apply handler_frame_refl. Qed.

Lemma keeps_save (c : jsstring) (data : Store.ChannelData) :
  keeps handler_frame (write (Store.saveChannelData c data)).
Proof. intros w. split; reflexivity. Qed.

Lemma keeps_createChat (workspace : jsstring) :
  keeps handler_frame (createChat_call env workspace).
Proof.
  intros w. unfold createChat_call.
  destruct (createChat _); split; reflexivity.
Qed.

Lemma keeps_sendPrompt (chatId workspace prompt : jsstring) :
  keeps handler_frame (sendPrompt_call env chatId workspace prompt).
Proof.
  intros w. unfold sendPrompt_call.
  destruct (outcome _); split; reflexivity.
Qed.

End Frame.

#[local] Hint Resolve keeps_ret keeps_throw keeps_call keeps_read keeps_save
  keeps_createChat keeps_sendPrompt : frame.

(** Breaks a handler into its calls; each call keeps the frame. *)
Ltac frame :=
  repeat first
    [ progress auto with frame
    | apply keeps_bind; [|intros ?]
    | apply keeps_try_catch; [|intros ?]
    | match goal with
      | |- keeps _ (if ?b then _ else _) => destruct b
      | |- keeps _ (match ?x with _ => _ end) => destruct x
      end ].

Section Handlers.
Context `{Platform}.
Variable env : Env.

Lemma keeps_say (c text : jsstring) : keeps handler_frame (say env c text).
Proof. unfold say, postMessage. frame. Qed.

Lemma keeps_addReaction (c ts emoji : jsstring) :
  keeps handler_frame (addReaction env c ts emoji).
Proof. unfold addReaction. frame. Qed.

Lemma keeps_removeReaction (c ts emoji : jsstring) :
  keeps handler_frame (removeReaction env c ts emoji).
Proof. unfold removeReaction. frame. Qed.

Hint Resolve keeps_say keeps_addReaction keeps_removeReaction : frame.

Lemma keeps_handleProjectsCommand (c : jsstring) :
  keeps handler_frame (handleProjectsCommand env c).
Proof. unfold handleProjectsCommand. frame. Qed.

Lemma keeps_handleDiffCommand (c : jsstring) (data : option Store.ChannelData) :
  keeps handler_frame (handleDiffCommand env c data).
Proof. unfold handleDiffCommand. frame. Qed.

Lemma keeps_handleNewCommand (c projectName : jsstring) :
  keeps handler_frame (handleNewCommand env c projectName).
Proof. unfold handleNewCommand, postMessage, updateMessage. frame. Qed.

Lemma keeps_handlePrompt (c ts prompt : jsstring) (data : Store.ChannelData) :
  keeps handler_frame (handlePrompt env c ts prompt data).
Proof. unfold handlePrompt, postMessage. frame. Qed.

Hint Resolve keeps_handleProjectsCommand keeps_handleDiffCommand
  keeps_handleNewCommand keeps_handlePrompt : frame.

(** [processMessage] records its message as dispatched and leaves the
    poll state alone. *)
Lemma processMessage_frame (c : jsstring) (m : Slack.SlackMessage) (w : World) :
  let w' := snd (processMessage env c m w) in
  Store.stateFile (files w') = Store.stateFile (files w)
  /\ dispatched w' = dispatched w ++ [(c, m)].
Proof.
  unfold processMessage.
  match goal with
  | |- context [note_dispatch c m ≫= ?k] =>
      assert (Hk : keeps handler_frame (k tt)) by (cbv beta zeta; frame)
  end.
  unfold mbind, M_bind, note_dispatch at 1. cbv beta iota zeta.
  match goal with
  | |- context [snd (?k ?w1)] => destruct (Hk w1) as [Hs Hd]
  end.
  cbv beta in Hs, Hd. simpl in *. split; [exact Hs|exact Hd].
Qed.

(** One turn of the loop of [pollChannel]: the cursor is at the message,
    whether its processing completes or raises; other channels keep
    their cursor; the message is dispatched or not. *)
Lemma pollMessage_effect (c : jsstring) (m : Slack.SlackMessage) (w : World) :
  let w' := snd (pollMessage env c m w) in
  cursor_of c w' = Some (Slack.ts m)
  /\ (dispatched w' = dispatched w \/ dispatched w' = dispatched w ++ [(c, m)]).
Proof.
  unfold pollMessage, mbind, M_bind, write, read. cbv beta iota zeta.
  set (w1 := {| files := Store.setLastSeenTs c (Slack.ts m) (files w);
                trace := trace w; spawned := spawned w;
                dispatched := dispatched w |}).
  assert (Hc : cursor_of c w1 = Some (Slack.ts m))
    by apply StoreFacts.getLastSeenTs_set.
  destruct (Slack.present (Slack.bot_id m)); [simpl; auto|].
  cbv beta iota.
  match goal with
  | |- context [if ?b then mret tt else _] => destruct b; [simpl; auto|]
  end.
  cbv beta iota. fold w1.
  destruct (processMessage_frame c m w1) as [Hs Hd].
  split; [|right; exact Hd].
  unfold cursor_of, Store.getLastSeenTs, Store.loadPollState in *.
  rewrite Hs. exact Hc.
Qed.

(** The loop of [pollChannel]: it ends at the last message, or at the
    message whose processing raised. *)
Lemma poll_loop_cursor (c : jsstring) (msgs : list Slack.SlackMessage) :
  forall w,
    let rw := for_each msgs (pollMessage env c) w in
    match fst rw with
    | Normal _ =>
        cursor_of c (snd rw)
        = match last msgs with
          | Some m => Some (Slack.ts m)
          | None => cursor_of c w
          end
    | Thrown e =>
        exists pre m post w_m,
          msgs = pre ++ m :: post
          /\ pollMessage env c m w_m = (Thrown e, snd rw)
          /\ cursor_of c (snd rw) = Some (Slack.ts m)
    end.
Proof.
  induction msgs as [|m msgs IH]; intros w; [reflexivity|].
  cbn [for_each]. unfold mbind, M_bind.
  pose proof (pollMessage_effect c m w) as [Hc _].
  destruct (pollMessage env c m w) as [[[]|e] w1] eqn:E; cbn [fst snd] in *.
  - specialize (IH w1). cbv zeta in IH.
    destruct (for_each msgs (pollMessage env c) w1) as [[[]|e] w2];
      cbn [fst snd] in *.
    + rewrite IH. destruct msgs as [|m' msgs']; [exact Hc|].
      rewrite last_cons_cons.
      destruct (last (m' :: msgs')) eqn:El; [reflexivity|].
      apply last_None in El. discriminate.
    + destruct IH as (pre & m' & post & w_m & -> & Hp & Hcur).
      exists (m :: pre), m', post, w_m. auto.
  - exists [], m, msgs, w. auto.
Qed.

Lemma poll_loop_dispatched (c : jsstring) (msgs : list Slack.SlackMessage) :
  forall w x,
    In x (dispatched (snd (for_each msgs (pollMessage env c) w))) ->
    In x (dispatched w) \/ exists m, In m msgs /\ x = (c, m).
Proof.
  induction msgs as [|m msgs IH]; intros w x; [simpl; auto|].
  cbn [for_each]. unfold mbind, M_bind.
  pose proof (pollMessage_effect c m w) as [_ Hd].
  destruct (pollMessage env c m w) as [[[]|e] w1]; cbn [fst snd] in *.
  - intros Hx. apply IH in Hx. destruct Hx as [Hx|(m' & Hm' & ->)].
    + destruct Hd as [Hd|Hd]; rewrite Hd in Hx; [auto|].
      apply in_app_or in Hx. destruct Hx as [Hx|[<-|[]]]; [auto|].
      right. exists m. split; [left; reflexivity|reflexivity].
    + right. exists m'. split; [right; exact Hm'|reflexivity].
  - intros Hx. destruct Hd as [Hd|Hd]; rewrite Hd in Hx; [auto|].
    apply in_app_or in Hx. destruct Hx as [Hx|[<-|[]]]; [auto|].
    right. exists m. split; [left; reflexivity|reflexivity].
Qed.

(** The loop for a channel never moves the cursor of another one. *)
Lemma pollMessage_other (c c' : jsstring) (m : Slack.SlackMessage) (w : World) :
  c' <> c ->
  cursor_of c (snd (pollMessage env c' m w)) = cursor_of c w.
Proof.
  intros Hne.
  unfold pollMessage, mbind, M_bind, write, read. cbv beta iota zeta.
  set (w1 := {| files := Store.setLastSeenTs c' (Slack.ts m) (files w);
                trace := trace w; spawned := spawned w;
                dispatched := dispatched w |}).
  assert (Hc : cursor_of c w1 = cursor_of c w).
  { unfold cursor_of, Store.getLastSeenTs, Store.loadPollState. cbn [files w1].
    rewrite (StoreFacts.stateFile_set_other c c' _ _ Hne). reflexivity. }
  destruct (Slack.present (Slack.bot_id m)); [exact Hc|].
  cbv beta iota.
  match goal with
  | |- context [if ?b then mret tt else _] => destruct b; [exact Hc|]
  end.
  cbv beta iota. fold w1.
  destruct (processMessage_frame c' m w1) as [Hs _].
  unfold cursor_of, Store.getLastSeenTs, Store.loadPollState in *.
  rewrite Hs. exact Hc.
Qed.

Lemma poll_loop_other (c c' : jsstring) (msgs : list Slack.SlackMessage) :
  c' <> c ->
  forall w,
    cursor_of c (snd (for_each msgs (pollMessage env c') w)) = cursor_of c w.
Proof.
  intros Hne. induction msgs as [|m msgs IH]; intros w; [reflexivity|].
  cbn [for_each]. unfold mbind, M_bind.
  pose proof (pollMessage_other c c' m w Hne) as Hm.
  destruct (pollMessage env c' m w) as [[[]|e] w1]; cbn [snd] in *.
  - rewrite IH. exact Hm.
  - exact Hm.
Qed.

(** [pollChannel], step by step. *)
Lemma pollChannel_unfold (c : jsstring) (w : World) :
  pollChannel env c w
  = let lastSeenTs := cursor_of c w in
    let oldest := truthy_ts lastSeenTs in
    let w1 := record (EvHistory c oldest) w in
    match conversations_history env (List.length (trace w)) c oldest with
    | Raises _ => (Normal tt, w1)
    | Returns result =>
        let messages := Slack.historyMessages result in
        if negb (Slack.present lastSeenTs) && (0 <? List.length messages)%nat
        then
          match last messages with
          | Some latest =>
              (Normal tt,
               {| files := Store.setLastSeenTs c (Slack.ts latest) (files w);
                  trace := trace w ++ [EvHistory c oldest];
                  spawned := spawned w;
                  dispatched := dispatched w |})
          | None => (Normal tt, w1)
          end
        else (Normal tt, snd (for_each messages (pollMessage env c) w1))
    end.
Proof.
  unfold pollChannel, getHistory, try_catch, mbind, M_bind, read, call, cursor_of.
  cbv beta iota zeta.
  destruct (conversations_history env _ c _) as [result|e]; [|reflexivity].
  cbv beta iota. unfold mret, M_ret.
  destruct (negb _ && _).
  - destruct (last (Slack.historyMessages result)); reflexivity.
  - destruct (for_each _ _ _) as [[[]|e] w2]; reflexivity.
Qed.

(** A poll of a channel never moves the cursor of another one. *)
Lemma pollChannel_other (c c' : jsstring) (w : World) :
  c' <> c ->
  cursor_of c (snd (pollChannel env c' w)) = cursor_of c w.
Proof.
  intros Hne. rewrite pollChannel_unfold. cbv zeta.
  destruct (conversations_history env _ c' _) as [result|e]; [|reflexivity].
  destruct (negb _ && _).
  - destruct (last _); [|reflexivity]. cbn [snd].
    unfold cursor_of, Store.getLastSeenTs, Store.loadPollState. cbn [files].
    rewrite (StoreFacts.stateFile_set_other c c' _ _ Hne). reflexivity.
  - cbn [snd]. rewrite (poll_loop_other c c' _ Hne). reflexivity.
Qed.

(** C4, as amended.  After a poll cycle of a channel, the stored cursor
    of the channel is unchanged when the history fetch returned no
    message (or failed); otherwise it is the timestamp of the last
    message returned, unless the processing of a message raised an
    exception: the cycle then ended there, with the cursor at the
    timestamp of that message. *)
Theorem cursor_after_poll (c : jsstring) (w : World) :
  let w' := snd (pollChannel env c w) in
  match last (fetched env c w) with
  | None => cursor_of c w' = cursor_of c w
  | Some latest =>
      cursor_of c w' = Some (Slack.ts latest)
      \/ exists pre m post w_m e,
           fetched env c w = pre ++ m :: post
           /\ pollMessage env c m w_m = (Thrown e, w')
           /\ cursor_of c w' = Some (Slack.ts m)
  end.
Proof.
  rewrite pollChannel_unfold. unfold fetched. fold (cursor_of c w).
  cbv zeta.
  destruct (conversations_history env _ c _) as [result|e]; [|reflexivity].
  set (msgs := Slack.historyMessages result).
  destruct (negb _ && _) eqn:Hfirst.
  - destruct (last msgs) as [latest|]; cbn [snd].
    + left. apply StoreFacts.getLastSeenTs_set.
    + reflexivity.
  - cbn [snd].
    pose proof (poll_loop_cursor c msgs (record (EvHistory c (truthy_ts (cursor_of c w))) w)) as Hloop.
    cbv zeta in Hloop.
    destruct (for_each msgs _ _) as [[[]|e] w2]; cbn [fst snd] in *.
    + destruct (last msgs) as [latest|]; [left|]; exact Hloop.
    + destruct Hloop as (pre & m & post & w_m & Hsplit & Hthrow & Hcur).
      destruct (last msgs) as [latest|] eqn:El.
      * right. exists pre, m, post, w_m, e. auto.
      * apply last_None in El. rewrite El in Hsplit.
        destruct pre; discriminate.
Qed.

(** The first-poll baseline: with no cursor and a fetch that returns
    messages, the poll records the fetch and writes the cursor. *)
Lemma pollChannel_baseline (c : jsstring) (w : World)
      (newest : Slack.SlackMessage) :
  cursor_of c w = None ->
  last (fetched env c w) = Some newest ->
  pollChannel env c w
  = (Normal tt,
     {| files := Store.setLastSeenTs c (Slack.ts newest) (files w);
        trace := trace w ++ [EvHistory c None];
        spawned := spawned w;
        dispatched := dispatched w |}).
Proof.
  intros Habsent. rewrite pollChannel_unfold. unfold fetched.
  fold (cursor_of c w). rewrite Habsent. cbv zeta. cbn [truthy_ts].
  destruct (conversations_history env _ c None) as [result|e];
    [|rewrite last_nil; discriminate].
  intros Hlast.
  assert (Hlen : (0 <? List.length (Slack.historyMessages result))%nat = true).
  { apply Nat.ltb_lt. destruct (Slack.historyMessages result); [discriminate|].
    simpl; lia. }
  rewrite Hlen, Hlast. reflexivity.
Qed.

(** A poll whose fetch returns nothing, or fails, only records the
    fetch. *)
Lemma pollChannel_nothing_fetched (c : jsstring) (w : World) :
  fetched env c w = [] ->
  pollChannel env c w
  = (Normal tt, record (EvHistory c (truthy_ts (cursor_of c w))) w).
Proof.
  rewrite pollChannel_unfold. unfold fetched. fold (cursor_of c w). cbv zeta.
  destruct (conversations_history env _ c _) as [result|e]; [|reflexivity].
  intros ->. cbn. rewrite andb_false_r. reflexivity.
Qed.

(** C5.  When the cursor of the channel is absent and the history fetch
    returns at least one message, the poll dispatches nothing, calls no
    collaborator besides the fetch, leaves the session files alone, and
    sets the cursor to the timestamp of the newest message returned. *)
Theorem first_poll_baseline (c : jsstring) (w : World)
        (newest : Slack.SlackMessage) :
  cursor_of c w = None ->
  last (fetched env c w) = Some newest ->
  let w' := snd (pollChannel env c w) in
  dispatched w' = dispatched w
  /\ trace w' = trace w ++ [EvHistory c None]
  /\ spawned w' = spawned w
  /\ Store.channelFiles (files w') = Store.channelFiles (files w)
  /\ cursor_of c w' = Some (Slack.ts newest).
Proof.
  intros Habsent Hlast w'. subst w'.
  rewrite (pollChannel_baseline c w newest Habsent Hlast). cbn [snd].
  split; [reflexivity|]. split; [reflexivity|]. split; [reflexivity|].
  split; [reflexivity|].
  unfold cursor_of. cbn [files]. apply StoreFacts.getLastSeenTs_set.
Qed.

(** A poll dispatches only messages that its history fetch returned. *)
Lemma poll_dispatches_fetched (c : jsstring) (w : World)
      (x : jsstring * Slack.SlackMessage) :
  In x (dispatched (snd (pollChannel env c w))) ->
  In x (dispatched w) \/ exists m, In m (fetched env c w) /\ x = (c, m).
Proof.
  rewrite pollChannel_unfold. unfold fetched. fold (cursor_of c w). cbv zeta.
  destruct (conversations_history env _ c _) as [result|e]; [|cbn; auto].
  destruct (negb _ && _).
  - destruct (last _); cbn; auto.
  - cbn [snd]. intros Hx. apply poll_loop_dispatched in Hx. exact Hx.
Qed.

(** C9.  When the cursor of the channel is absent and the history fetch
    returns no message, the poll stores no cursor and dispatches nothing.
    Consequently a later poll of the channel, made while the cursor is
    still as that poll left it, takes the first-poll baseline when its
    fetch returns messages, the first message ever posted among them:
    the cursor goes to the timestamp of the newest of them and none is
    dispatched.  Nor is a message dispatched by any poll whose fetch
    does not return it. *)
Theorem empty_first_poll_loses_first_message (c : jsstring) (w : World) :
  cursor_of c w = None ->
  fetched env c w = [] ->
  let w1 := snd (pollChannel env c w) in
  (cursor_of c w1 = None /\ dispatched w1 = dispatched w)
  /\ (forall w2 newest,
        cursor_of c w2 = cursor_of c w1 ->
        last (fetched env c w2) = Some newest ->
        let w3 := snd (pollChannel env c w2) in
        cursor_of c w3 = Some (Slack.ts newest)
        /\ dispatched w3 = dispatched w2)
  /\ (forall m w2,
        ~ In m (fetched env c w2) ->
        In (c, m) (dispatched (snd (pollChannel env c w2))) ->
        In (c, m) (dispatched w2)).
Proof.
  intros Habsent Hnone. cbv zeta.
  rewrite (pollChannel_nothing_fetched c w Hnone). cbn [snd].
  split; [split; [exact Habsent|reflexivity]|]. split.
  - intros w2 newest Hsame Hlast.
    change (cursor_of c (record (EvHistory c (truthy_ts (cursor_of c w))) w))
      with (cursor_of c w) in Hsame.
    rewrite Habsent in Hsame.
    rewrite (pollChannel_baseline c w2 newest Hsame Hlast). cbn [snd].
    split; [|reflexivity].
    unfold cursor_of. cbn [files]. apply StoreFacts.getLastSeenTs_set.
  - intros m w2 Hnot Hin.
    destruct (poll_dispatches_fetched c w2 _ Hin) as [Hold|(m' & Hm' & [= <-])];
      [exact Hold|contradiction].
Qed.

(** C7.  When the resolved project path does not exist, [handleNewCommand]
    only asks the file system and posts the failure: no agent process is
    spawned, no chat is created, and the files of the store, the session
    record of the channel among them, are as before. *)
Theorem missing_path_leaves_session (c projectName : jsstring) (w : World) :
  fs_existsSync env (List.length (trace w)) (resolveProjectPath env projectName)
  = false ->
  let projectPath := resolveProjectPath env projectName in
  let w' := snd (handleNewCommand env c projectName w) in
  trace w'
  = trace w
    ++ [EvExists projectPath;
        EvPost c (JString (cross_mark ++ lit " Path does not exist: `"
                           ++ projectPath ++ lit "`"))]
  /\ spawned w' = spawned w
  /\ files w' = files w
  /\ session_of c w' = session_of c w.
Proof.
  intros Hmissing.
  unfold handleNewCommand, say, postMessage, call, mbind, M_bind, session_of.
  cbv beta iota zeta. rewrite Hmissing. cbn [negb].
  destruct (chat_postMessage env _ c _); cbn;
    rewrite <- app_assoc; repeat split.
Qed.

(** A message whose text, after the mentions of the bot are removed, is
    a start-session command goes to [handleNewCommand]. *)
Lemma start_session_dispatch (c : jsstring) (m : Slack.SlackMessage)
      (group : jsstring) (w : World) :
  Regex.match_new
    (Slack.removeBotMention (slackBotUserId env) (default [] (Slack.text m)))
  = Some group ->
  processMessage env c m w
  = handleNewCommand env c (trim group) (snd (note_dispatch c m w)).
Proof.
  unfold processMessage, mbind, M_bind, note_dispatch. cbv beta iota zeta.
  intros Hnew. rewrite Hnew.
  assert (Hp : Regex.test_command (lit "/projects")
                 (Slack.removeBotMention (slackBotUserId env)
                    (default [] (Slack.text m))) = false).
  { revert Hnew. generalize (Slack.removeBotMention (slackBotUserId env)
                               (default [] (Slack.text m))).
    intros s. unfold Regex.match_new, Regex.test_command.
    change (lit "/new") with (47 :: 110 :: lit "ew").
    change (lit "/projects") with (47 :: 112 :: lit "rojects").
    destruct s as [|a [|b s]]; cbn [stripPrefix]; try discriminate.
    - destruct (47 =? a); discriminate.
    - destruct (47 =? a); [|discriminate].
      destruct (110 =? b) eqn:Eb; [|discriminate].
      apply N.eqb_eq in Eb. subst b. reflexivity. }
  rewrite Hp. reflexivity.
Qed.

End Handlers.

(** C4 as stated fails: Slack returns two messages after the cursor and
    refuses the reply to the first one; the cycle ends there, with the
    cursor at the first message and not at the last one returned. *)
Lemma cursor_after_poll_counterexample :
  let w' := snd (@pollChannel Scenario.posix Scenario.env_posts_fail
                   Scenario.C1 Scenario.world0) in
  fetched Scenario.env_posts_fail Scenario.C1 Scenario.world0
  = [Scenario.message "101.0" "/diff"; Scenario.message "102.0" "/projects"]
  /\ cursor_of Scenario.C1 w' = Some (lit "101.0")
  /\ cursor_of Scenario.C1 w' <> Some (lit "102.0")
  /\ cursor_of Scenario.C1 w' <> cursor_of Scenario.C1 Scenario.world0.
Proof. vm_compute. repeat split; discriminate. Qed.

(** A channel without session: a message that does not address the bot
    is not dispatched and gets no reply, and the cursor still advances. *)
Example unaddressed_message_skipped :
  let w' := snd (@pollChannel Scenario.posix Scenario.env_quiet
                   Scenario.C1 Scenario.world_no_session) in
  dispatched w' = []
  /\ trace w' = [EvHistory Scenario.C1 (Some (lit "100.0"))]
  /\ cursor_of Scenario.C1 w' = Some (lit "101.0").
Proof. vm_compute. repeat split. Qed.

(** [/projects] lists the directories that are not hidden, in order. *)
Example projects_listed :
  trace (snd (handleProjectsCommand Scenario.env_quiet
                Scenario.C1 Scenario.world0))
  = [EvReaddir (lit "/srv");
     EvPost Scenario.C1
       (JString (file_folder ++ lit " *Projects in /srv:*" ++ newline
                 ++ bullet ++ lit " `a`" ++ newline
                 ++ bullet ++ lit " `b`"))].
Proof. reflexivity. Qed.

(** C5 in a channel never polled, whose history holds two messages. *)
Lemma first_poll_baseline_witness :
  let w' := snd (@pollChannel Scenario.posix Scenario.env_posts_fail
                   Scenario.C2 Scenario.world0) in
  dispatched w' = []
  /\ trace w' = [EvHistory Scenario.C2 None]
  /\ spawned w' = 0%nat
  /\ Store.channelFiles (files w') = Store.channelFiles Scenario.files0
  /\ cursor_of Scenario.C2 w' = Some (lit "102.0").
Proof.
  apply (@first_poll_baseline Scenario.posix Scenario.env_posts_fail
           Scenario.C2 Scenario.world0
           (Scenario.message "102.0" "/projects")); reflexivity.
Defined.

(** C9 in a channel never polled: its history is empty at the first
    poll and holds the first message, addressed to the bot, at the
    second. *)
Lemma empty_first_poll_loses_first_message_witness :
  let w1 := snd (@pollChannel Scenario.posix Scenario.env_first_message
                   Scenario.C2 Scenario.world0) in
  let w2 := snd (@pollChannel Scenario.posix Scenario.env_first_message
                   Scenario.C2 w1) in
  cursor_of Scenario.C2 w1 = None
  /\ cursor_of Scenario.C2 w2 = Some (lit "201.0")
  /\ dispatched w2 = [].
Proof.
  destruct (@empty_first_poll_loses_first_message Scenario.posix
              Scenario.env_first_message Scenario.C2 Scenario.world0)
    as ((Hc1 & Hd1) & Hnext & _); [reflexivity|reflexivity|].
  destruct (Hnext _ (Scenario.message "201.0" "<@U1> /projects")
              eq_refl eq_refl) as (Hc2 & Hd2).
  cbv zeta. split; [exact Hc1|]. split; [exact Hc2|].
  rewrite Hd2. exact Hd1.
Defined.

(** C7 for the command [/new /nonexistent/path] in a channel that has a
    session. *)
Lemma missing_path_leaves_session_witness :
  let w' := snd (@handleNewCommand Scenario.posix Scenario.env_posts_fail
                   Scenario.C1 (lit "/nonexistent/path") Scenario.world0) in
  trace w'
  = [EvExists (lit "/nonexistent/path");
     EvPost Scenario.C1
       (JString (cross_mark ++ lit " Path does not exist: `/nonexistent/path`"))]
  /\ spawned w' = 0%nat
  /\ files w' = Scenario.files0
  /\ session_of Scenario.C1 w' = Some Scenario.session1.
Proof.
  apply (@missing_path_leaves_session Scenario.posix Scenario.env_posts_fail
           Scenario.C1 (lit "/nonexistent/path") Scenario.world0).
  reflexivity.
Defined.

End PollLoop.

(** * Further properties of the code *)

(** ** Strings *)

Module StringFacts.

Lemma trimEnd_idempotent (s : jsstring) : trimEnd (trimEnd s) = trimEnd s.
Proof.
  induction s as [|c s IH]; [reflexivity|]. simpl.
  destruct (trimEnd s) as [|x t] eqn:E.
  - destruct (isSpace c) eqn:Ec; [reflexivity|]. simpl. rewrite Ec. reflexivity.
  - change (trimEnd (c :: x :: t))
      with (match trimEnd (x :: t) with
            | [] => if isSpace c then [] else [c]
            | u => c :: u
            end).
    rewrite IH. reflexivity.
Qed.

Lemma trimStart_fixed (s : jsstring) :
  match s with [] => True | c :: _ => isSpace c = false end ->
  trimStart s = s.
Proof. destruct s as [|c s]; [reflexivity|]. simpl. intros ->. reflexivity. Qed.

(** [trim] strips all it can: trimming twice changes nothing more. *)
Lemma trim_idempotent (s : jsstring) : trim (trim s) = trim s.
Proof.
  unfold trim at 1. rewrite trimStart_fixed.
  - unfold trim. apply trimEnd_idempotent.
  - destruct (trim s) as [|c t] eqn:E; [exact I|].
    exact (JsonFacts.trim_head _ _ _ E).
Qed.

Lemma startsWith_app (p s t : jsstring) :
  startsWith p s = true -> startsWith p (s ++ t) = true.
Proof.
  revert s; induction p as [|a p IH]; intros [|c s]; simpl; try congruence.
  destruct (a =? c); [apply IH|discriminate].
Qed.

Lemma includes_app_r (p s t : jsstring) :
  includes p s = true -> includes p (s ++ t) = true.
Proof.
  induction s as [|c s IH]; simpl.
  - rewrite orb_false_r. destruct p; [|discriminate].
    intros _. destruct t; reflexivity.
  - intros Hi. apply orb_true_iff in Hi. apply orb_true_iff.
    destruct Hi as [Hs|Hi]; [left|right; exact (IH Hi)].
    exact (startsWith_app p (c :: s) t Hs).
Qed.

(** A text without the pattern is left as it is by [removeAll]. *)
Lemma removeAll_absent (p s : jsstring) :
  includes p s = false -> removeAll p s = s.
Proof.
  induction s as [|c s IH]; [reflexivity|].
  intros Hi. simpl in Hi. apply orb_false_iff in Hi. destruct Hi as [Hs Hi].
  cbn [removeAll]. destruct p as [|a p]; [reflexivity|].
  rewrite Hs. rewrite (IH Hi). reflexivity.
Qed.

End StringFacts.

(** ** The agent invoker, further *)

Module AgentFacts.
Import Regex.

(** *** Retry patterns *)

Lemma match_here_app (p : list atom) :
  forall s t, match_here p s = true -> match_here p (s ++ t) = true.
Proof.
  induction p as [|[a|] p IH]; intros s t; [reflexivity| |].
  - destruct s as [|c s]; simpl; [discriminate|].
    intros Hm. apply andb_true_iff in Hm. destruct Hm as [-> Hm].
    exact (IH s t Hm).
  - cbn [match_here]. intros Hm. apply orb_true_iff in Hm. apply orb_true_iff.
    destruct Hm as [Hm|Hm]; [left|right; exact (IH s t Hm)].
    destruct s as [|c s]; [discriminate|]. simpl.
    apply andb_true_iff in Hm. destruct Hm as [-> Hm]. exact (IH s t Hm).
Qed.

Lemma test_app_r (p : list atom) (s t : jsstring) :
  test p s = true -> test p (s ++ t) = true.
Proof.
  induction s as [|c s IH]; simpl.
  - rewrite orb_false_r. intros Hm.
    apply (match_here_app p [] t) in Hm. simpl in Hm.
    destruct t; simpl; rewrite Hm; reflexivity.
  - intros Hm. apply orb_true_iff in Hm. apply orb_true_iff.
    destruct Hm as [Hm|Hm]; [left|right; exact (IH Hm)].
    exact (match_here_app p (c :: s) t Hm).
Qed.

Lemma test_app_l (p : list atom) (pre s : jsstring) :
  test p s = true -> test p (pre ++ s) = true.
Proof.
  intros Hm. induction pre as [|c pre IH]; [exact Hm|].
  simpl. rewrite IH. apply orb_true_r.
Qed.

(** X1.  A text that contains a retryable text is retryable: the patterns
    are searched anywhere in the text. *)
Theorem isRetryable_in_context (pre s post : jsstring) :
  isRetryable s = true -> isRetryable (pre ++ s ++ post) = true.
Proof.
  unfold isRetryable. intros Hs.
  apply existsb_exists in Hs. destruct Hs as (p & Hp & Hm).
  apply existsb_exists. exists p. split; [exact Hp|].
  apply test_app_l, test_app_r, Hm.
Qed.

Lemma isRetryable_in_context_witness :
  isRetryable (lit "HTTP 429: " ++ lit "Too Many Requests" ++ lit ", retry later")
  = true.
Proof.
  apply (isRetryable_in_context (lit "HTTP 429: ") (lit "Too Many Requests")
           (lit ", retry later")).
  reflexivity.
Defined.

(** Decides the comparisons of code units in the goal, one by one. *)
Ltac compare_units :=
  repeat (match goal with
          | |- context [?x <=? ?y] => destruct (N.leb_spec x y)
          | |- context [?x =? ?y] => destruct (N.eqb_spec x y)
          end; cbn [andb orb negb] in *);
  try reflexivity; try lia.

Lemma canonicalize_lower (a c : N) :
  a < 128 ->
  (canonicalize a =? canonicalize (lowerUnit c))
  = (canonicalize a =? canonicalize c).
Proof.
  intros Ha. unfold lowerUnit.
  destruct ((65 <=? c) && (c <=? 90)) eqn:E1.
  - apply andb_true_iff in E1. destruct E1 as [L1 L2].
    apply N.leb_le in L1, L2. unfold canonicalize. compare_units.
  - destruct ((192 <=? c) && (c <=? 222) && negb (c =? 215)) eqn:E2;
      [|reflexivity].
    apply andb_true_iff in E2. destruct E2 as [E2 _].
    apply andb_true_iff in E2. destruct E2 as [L1 L2].
    apply N.leb_le in L1, L2. unfold canonicalize. compare_units.
Qed.

Lemma isLineTerminator_lower (c : N) :
  isLineTerminator (lowerUnit c) = isLineTerminator c.
Proof.
  unfold lowerUnit.
  destruct ((65 <=? c) && (c <=? 90)) eqn:E1.
  - apply andb_true_iff in E1. destruct E1 as [L1 L2].
    apply N.leb_le in L1, L2. unfold isLineTerminator. compare_units.
  - destruct ((192 <=? c) && (c <=? 222) && negb (c =? 215)) eqn:E2;
      [|reflexivity].
    apply andb_true_iff in E2. destruct E2 as [E2 _].
    apply andb_true_iff in E2. destruct E2 as [L1 L2].
    apply N.leb_le in L1, L2. unfold isLineTerminator. compare_units.
Qed.

Lemma match_here_lower (p : list atom) :
  forallb Observe.ascii_atom p = true ->
  forall s, match_here p (toLowerCase s) = match_here p s.
Proof.
  induction p as [|[a|] p IH]; intros Hp s; [reflexivity| |];
    cbn [forallb Observe.ascii_atom] in Hp; apply andb_true_iff in Hp;
    destruct Hp as [Ha Hp]; specialize (IH Hp).
  - apply N.ltb_lt in Ha. destruct s as [|c s]; [reflexivity|].
    cbn [toLowerCase map match_here].
    rewrite (canonicalize_lower a c Ha). f_equal. apply IH.
  - destruct s as [|c s]; cbn [toLowerCase map match_here].
    + apply (IH []).
    + rewrite isLineTerminator_lower.
      change (map lowerUnit s) with (toLowerCase s). rewrite (IH s).
      change (lowerUnit c :: toLowerCase s) with (toLowerCase (c :: s)).
      rewrite (IH (c :: s)). reflexivity.
Qed.

Lemma test_lower (p : list atom) :
  forallb Observe.ascii_atom p = true ->
  forall s, test p (toLowerCase s) = test p s.
Proof.
  intros Hp. induction s as [|c s IH].
  - reflexivity.
  - change (test p (toLowerCase (c :: s)))
      with (match_here p (toLowerCase (c :: s)) || test p (toLowerCase s)).
    rewrite (match_here_lower p Hp (c :: s)), IH. reflexivity.
Qed.

(** X2.  The classification ignores letter case: a text of Basic Latin
    and Latin-1 characters, the range in which lower-casing works on
    each code unit by itself, and its lower-cased form are retryable
    together. *)
Theorem isRetryable_ignores_case (text : jsstring) :
  Forall (fun c => c < 256) text ->
  isRetryable (toLowerCase text) = isRetryable text.
Proof.
  intros _. unfold isRetryable.
  assert (Hall : Forall (fun p => forallb Observe.ascii_atom p = true)
                        RETRYABLE_PATTERNS).
  { repeat constructor. }
  induction Hall as [|p ps Hp _ IH]; [reflexivity|].
  cbn [existsb]. rewrite (test_lower p Hp), IH. reflexivity.
Qed.

Lemma isRetryable_ignores_case_witness :
  isRetryable (toLowerCase (lit "Rate Limit reached"))
  = isRetryable (lit "Rate Limit reached").
Proof.
  apply isRetryable_ignores_case.
  cbv [lit list_ascii_of_string map].
  repeat (apply List.Forall_cons; [reflexivity|]). apply List.Forall_nil.
Defined.

(** *** createChat and sendPromptOnce *)

(** X3.  [createChat] resolves only for a process that exited with code
    0, and the identifier it returns is the trimmed output of the
    process: never empty, and without white space at either end. *)
Theorem createChat_resolved (ev : ProcEvent) (chatId : jsstring) :
  createChat ev = Resolved chatId ->
  (exists stdout stderr,
      ev = ProcClose (Some 0%Z) stdout stderr /\ chatId = trim stdout)
  /\ chatId <> []
  /\ trim chatId = chatId.
Proof.
  unfold createChat. destruct ev as [code stdout stderr|err]; [|discriminate].
  destruct code as [[| |]|]; try discriminate.
  destruct (nonEmpty (trim stdout)) eqn:Hne; [|discriminate].
  cbn [negb]. intros [= <-]. split; [eauto|]. split.
  - intros Heq. rewrite Heq in Hne. discriminate.
  - apply StringFacts.trim_idempotent.
Qed.

Lemma createChat_resolved_witness :
  (exists stdout stderr,
      ProcClose (Some 0%Z) (lit " chat-9 ") [] = ProcClose (Some 0%Z) stdout stderr
      /\ lit "chat-9" = trim stdout)
  /\ lit "chat-9" <> []
  /\ trim (lit "chat-9") = lit "chat-9".
Proof.
  apply (createChat_resolved (ProcClose (Some 0%Z) (lit " chat-9 ") [])
           (lit "chat-9")).
  reflexivity.
Defined.

Section WithPlatform.
Context `{Platform}.

Lemma error_text_nonempty (output : jsstring) :
  includes (lit "error") (toLowerCase output) = true -> output <> [].
Proof. intros Hi ->. discriminate. Qed.

Lemma orElse_nonempty (a b : jsstring) : b <> [] -> orElse a b <> [].
Proof.
  unfold orElse. destruct a; simpl; [auto|discriminate].
Qed.

(** X4.  A process that does not exit with code 0 never resolves the
    attempt: it is rejected, the error is classified (the [retryable]
    property is set, to [true] or [false]), and its message is not
    empty. *)
Theorem nonzero_exit_rejected (code : option Z) (stdout stderr : jsstring) :
  code <> Some 0%Z ->
  exists e b,
    sendPromptOnce (ProcClose code stdout stderr) = Rejected e
    /\ retryable e = Some b
    /\ message e <> [].
Proof.
  intros Hcode. unfold sendPromptOnce.
  destruct (includes (lit "error") (toLowerCase (trim stdout))) eqn:Hinc;
    cbn [andb].
  - destruct (startsWith (lit "{") (trim stdout)); cbn [negb].
    + destruct code as [[| |]|]; try congruence;
        eexists; eexists; (split; [reflexivity|]); (split; [reflexivity|]);
        cbn [message]; apply orElse_nonempty, orElse_nonempty; discriminate.
    + eexists; eexists; split; [reflexivity|]. split; [reflexivity|].
      cbn [message]. exact (error_text_nonempty _ Hinc).
  - destruct code as [[| |]|]; try congruence;
      eexists; eexists; (split; [reflexivity|]); (split; [reflexivity|]);
      cbn [message]; apply orElse_nonempty, orElse_nonempty; discriminate.
Qed.

(** X6.  A structured response whose error flag is not set, printed by a
    process that exits with code 0, resolves the attempt with its result
    member, whatever the text of the result: the word "error" inside a
    response does not trip the error-text check. *)
Theorem structured_success_resolved
        (stdout stderr : jsstring) ms (flag result : JsValue) :
  JSON_parse (trim stdout) = Some (JObject ms) ->
  get_field (JObject ms) (lit "is_error") = Some flag ->
  truthy flag = false ->
  get_field (JObject ms) (lit "result") = Some result ->
  sendPromptOnce (ProcClose (Some 0%Z) stdout stderr) = Resolved result.
Proof.
  intros Hparse Hflag Hfalsy Hresult. unfold sendPromptOnce.
  rewrite (JsonFacts.parsed_object_starts_with_brace _ _ Hparse).
  rewrite andb_false_r. unfold try_block. rewrite Hparse.
  cbn [mbind option_bind]. rewrite Hflag. cbn [mbind option_bind].
  rewrite Hfalsy, Hresult. reflexivity.
Qed.

End WithPlatform.

Lemma nonzero_exit_rejected_witness :
  exists e b,
    @sendPromptOnce Scenario.posix (ProcClose None (lit "partial") [])
    = Rejected e
    /\ retryable e = Some b
    /\ message e <> [].
Proof.
  apply (@nonzero_exit_rejected Scenario.posix None (lit "partial") []).
  discriminate.
Defined.

Lemma structured_success_resolved_witness :
  @sendPromptOnce Scenario.posix (ProcClose (Some 0%Z) Observe.error_report [])
  = Resolved (JString (lit "Fixed the error in main.ts")).
Proof.
  apply (@structured_success_resolved Scenario.posix Observe.error_report []
           [(lit "is_error", JBool false);
            (lit "result", JString (lit "Fixed the error in main.ts"))]
           (JBool false));
    reflexivity.
Defined.

(** *** sendPrompt *)

Section Runs.
Context `{Platform}.
Variables chatId prompt : jsstring.

(** Every run of the loop: some attempts made on schedule, all but the
    last failing in a way that is retried, the settlement of the last
    being the settlement of the run. *)
Lemma attempts_from_shape (m : nat) (agent : nat -> ProcEvent) :
  forall (r a : nat) (lastError : option JsError),
    (a + S r = m + 1)%nat ->
    exists n,
      (n <= r)%nat
      /\ attempts_from chatId prompt (Z.of_nat m) agent (S r) a lastError
         = {| effects := schedule chatId prompt a (S n);
              outcome := sendPromptOnce (agent (a + n)%nat) |}
      /\ (forall k, (a <= k < a + n)%nat -> fails_retryable (agent k) = true)
      /\ ((n < r)%nat -> fails_retryable (agent (a + n)%nat) = false).
Proof.
  induction r as [|r IH]; intros a lastError Har.
  - exists 0%nat. split; [lia|]. split; [|split; intros; lia].
    destruct (fails_retryable (agent a)) eqn:Hfa.
    + rewrite (RetryProtocol.attempts_from_run chatId prompt m agent 0 a
                 lastError 1); [reflexivity|exact Har| |intros; lia].
      intros k Hk. replace k with a by lia. exact Hfa.
    + rewrite (RetryProtocol.attempts_from_run chatId prompt m agent 0 a
                 lastError 0); [reflexivity|exact Har|intros; lia|].
      intros _. replace (a + 0)%nat with a by lia. exact Hfa.
  - destruct (fails_retryable (agent a)) eqn:Hfa.
    + destruct (RetryProtocol.fails_retryable_inv _ Hfa) as (e & He & Hre).
      destruct (IH (S a) (Some e) ltac:(lia)) as (n & Hn & Hrun & Hbefore & Hlast).
      exists (S n). split; [lia|]. split; [|split].
      * rewrite RetryProtocol.attempts_from_S, He, Hre. cbn [negb orb].
        assert (Hm : (Z.of_nat m <=? Z.of_nat a)%Z = false)
          by (apply Z.leb_gt; lia).
        rewrite Hm, Hrun. unfold preceded. cbn [effects outcome schedule].
        replace (a + S n)%nat with (S a + n)%nat by lia.
        rewrite <- app_assoc. reflexivity.
      * intros k Hk. destruct (Nat.eq_dec k a) as [->|Hne]; [exact Hfa|].
        apply Hbefore. lia.
      * intros Hlt. replace (a + S n)%nat with (S a + n)%nat by lia.
        apply Hlast. lia.
    + exists 0%nat. split; [lia|]. split; [|split].
      * rewrite (RetryProtocol.attempts_from_run chatId prompt m agent (S r) a
                   lastError 0); [reflexivity|exact Har|intros; lia|].
        intros _. replace (a + 0)%nat with a by lia. exact Hfa.
      * intros k Hk. lia.
      * intros _. replace (a + 0)%nat with a by lia. exact Hfa.
Qed.

(** The same for [sendPrompt] with a budget [m >= 0]. *)
Lemma sendPrompt_shape (m : nat) (agent : nat -> ProcEvent) :
  exists n,
    (n <= m)%nat
    /\ sendPrompt chatId prompt (Z.of_nat m) agent
       = {| effects := schedule chatId prompt 0 (S n);
            outcome := sendPromptOnce (agent n) |}
    /\ (forall k, (k < n)%nat -> fails_retryable (agent k) = true)
    /\ ((n < m)%nat -> fails_retryable (agent n) = false).
Proof.
  unfold sendPrompt. replace (Z.to_nat (Z.of_nat m + 1)) with (S m) by lia.
  destruct (attempts_from_shape m agent m 0 None ltac:(lia))
    as (n & Hn & Hrun & Hbefore & Hlast).
  exists n. cbn [Nat.add] in *. repeat split; try assumption.
  intros k Hk. apply Hbefore. lia.
Qed.

(** X8.  Whatever the agent does, [sendPrompt] with a budget
    [maxRetries >= 0] spawns at least one and at most [maxRetries + 1]
    processes, and its effects are those attempts on schedule: a sleep
    before every attempt but the first, of the length the backoff formula
    gives, and nothing else. *)
Theorem sendPrompt_on_schedule (maxRetries : nat) (agent : nat -> ProcEvent) :
  let r := sendPrompt chatId prompt (Z.of_nat maxRetries) agent in
  (1 <= attempts_made r <= maxRetries + 1)%nat
  /\ effects r = schedule chatId prompt 0 (attempts_made r)
  /\ attempt_delays r = map delay_before_attempt (seq 0 (attempts_made r)).
Proof.
  cbv zeta. destruct (sendPrompt_shape maxRetries agent) as (n & Hn & -> & _).
  unfold attempts_made, attempt_delays. cbn [effects].
  rewrite RetryProtocol.spawn_count_schedule, RetryProtocol.delays_schedule.
  repeat split; lia.
Qed.

(** X9.  A run of [sendPrompt] ends as the last attempt it made ends:
    it resolves with the value, or raises the error, of that attempt.
    Every earlier attempt failed with a retryable error, and a last
    attempt that is not the last of the budget did not. *)
Theorem sendPrompt_ends_as_last_attempt
        (maxRetries : nat) (agent : nat -> ProcEvent) :
  let r := sendPrompt chatId prompt (Z.of_nat maxRetries) agent in
  let last_attempt := Nat.pred (attempts_made r) in
  outcome r = sendPromptOnce (agent last_attempt)
  /\ (forall k, (k < last_attempt)%nat -> fails_retryable (agent k) = true)
  /\ ((last_attempt < maxRetries)%nat ->
      fails_retryable (agent last_attempt) = false).
Proof.
  cbv zeta.
  destruct (sendPrompt_shape maxRetries agent) as (n & Hn & -> & Hbefore & Hlast).
  unfold attempts_made. cbn [effects outcome].
  rewrite RetryProtocol.spawn_count_schedule. cbn [Nat.pred].
  repeat split; assumption.
Qed.

(** X10.  With a negative budget [sendPrompt] spawns no process and
    raises "Failed after retries". *)
Theorem negative_budget_no_attempt (maxRetries : Z) (agent : nat -> ProcEvent) :
  (maxRetries < 0)%Z ->
  sendPrompt chatId prompt maxRetries agent
  = {| effects := [];
       outcome := Rejected (Error (lit "Failed after retries")) |}.
Proof.
  intros Hneg. unfold sendPrompt.
  replace (Z.to_nat (maxRetries + 1)) with 0%nat by lia. reflexivity.
Qed.

(** X7.  A process that cannot be spawned is not retried: whatever the
    budget, [sendPrompt] makes the one attempt and raises "Spawn
    failed". *)
Theorem spawn_failure_not_retried
        (maxRetries : nat) (agent : nat -> ProcEvent) (err : jsstring) :
  agent 0%nat = ProcError err ->
  sendPrompt chatId prompt (Z.of_nat maxRetries) agent
  = {| effects := [Spawn chatId prompt];
       outcome := Rejected (Error (lit "Spawn failed: " ++ err)) |}.
Proof.
  intros Hagent. unfold sendPrompt.
  replace (Z.to_nat (Z.of_nat maxRetries + 1)) with (S maxRetries) by lia.
  rewrite RetryProtocol.attempts_from_S, Hagent. reflexivity.
Qed.

(** X5.  A process that does not exit with code 0 and has printed
    nothing, as one killed by the timeout before its first output, is
    rejected with "Unknown error" and is not retried. *)
Theorem silent_failure_not_retried
        (maxRetries : nat) (agent : nat -> ProcEvent) (code : option Z) :
  code <> Some 0%Z ->
  agent 0%nat = ProcClose code [] [] ->
  sendPrompt chatId prompt (Z.of_nat maxRetries) agent
  = {| effects := [Spawn chatId prompt];
       outcome := Rejected {| message := lit "Unknown error";
                              retryable := Some false |} |}.
Proof.
  intros Hcode Hagent. unfold sendPrompt.
  replace (Z.to_nat (Z.of_nat maxRetries + 1)) with (S maxRetries) by lia.
  rewrite RetryProtocol.attempts_from_S, Hagent.
  destruct code as [[| |]|]; try congruence; reflexivity.
Qed.

(** X12.  With the default budget of three retries, [sendPrompt] sleeps
    7000 ms at most in all, whatever the agent does. *)
Theorem default_budget_total_wait (agent : nat -> ProcEvent) :
  (fold_right Z.add 0 (attempt_delays (sendPrompt chatId prompt 3 agent))
   <= 7000)%Z.
Proof.
  change 3%Z with (Z.of_nat 3).
  destruct (sendPrompt_shape 3 agent) as (n & Hn & -> & _).
  unfold attempt_delays. cbn [effects].
  rewrite RetryProtocol.delays_schedule.
  assert (Hcases : n = 0%nat \/ n = 1%nat \/ n = 2%nat \/ n = 3%nat) by lia.
  destruct Hcases as [-> | [-> | [-> | ->]]]; vm_compute; discriminate.
Qed.

End Runs.

(** X11.  The delay before a retry starts at one second, never shrinks
    from one retry to the next, doubles up to the fifth retry and is
    30 seconds from the sixth retry on. *)
Theorem backoff_bounds (attempt : nat) :
  (1 <= attempt)%nat ->
  (1000 <= backoff attempt <= 30000)%Z
  /\ (backoff attempt <= backoff (S attempt))%Z
  /\ ((attempt <= 5)%nat ->
      backoff attempt = (1000 * 2 ^ (Z.of_nat attempt - 1))%Z)
  /\ ((6 <= attempt)%nat -> backoff attempt = 30000%Z).
Proof.
  intros Ha. unfold backoff.
  replace (Z.of_nat (S attempt) - 1)%Z with (Z.succ (Z.of_nat attempt - 1))
    by lia.
  set (k := (Z.of_nat attempt - 1)%Z). assert (Hk : (0 <= k)%Z) by lia.
  rewrite Z.pow_succ_r by exact Hk.
  assert (Hpos : (1 <= 2 ^ k)%Z).
  { change 1%Z with (2 ^ 0)%Z. apply Z.pow_le_mono_r; lia. }
  repeat split; try lia.
  - intros Hle. assert (Hk5 : (k <= 4)%Z) by lia.
    assert (H16 : (2 ^ k <= 2 ^ 4)%Z) by (apply Z.pow_le_mono_r; lia).
    change (2 ^ 4)%Z with 16%Z in H16. lia.
  - intros Hge. assert (Hk5 : (5 <= k)%Z) by lia.
    assert (H32 : (2 ^ 5 <= 2 ^ k)%Z) by (apply Z.pow_le_mono_r; lia).
    change (2 ^ 5)%Z with 32%Z in H32. lia.
Qed.

Lemma backoff_bounds_witness :
  (1000 <= backoff 3 <= 30000)%Z
  /\ (backoff 3 <= backoff 4)%Z
  /\ ((3 <= 5)%nat -> backoff 3 = (1000 * 2 ^ (Z.of_nat 3 - 1))%Z)
  /\ ((6 <= 3)%nat -> backoff 3 = 30000%Z).
Proof. apply (backoff_bounds 3). lia. Defined.

Lemma sendPrompt_ends_as_last_attempt_witness :
  outcome (@sendPrompt Scenario.posix Scenario.chat Scenario.question 3
             Scenario.agent_recovers)
  = Resolved (JString (lit "done"))
  /\ fails_retryable (H := Scenario.posix) (Scenario.agent_recovers 1) = true
  /\ fails_retryable (H := Scenario.posix) (Scenario.agent_recovers 2) = false.
Proof.
  destruct (@sendPrompt_ends_as_last_attempt Scenario.posix Scenario.chat
              Scenario.question 3 Scenario.agent_recovers)
    as (Hout & Hbefore & Hlast).
  split; [exact (eq_trans Hout eq_refl)|]. split.
  - apply (Hbefore 1%nat). vm_compute. lia.
  - apply Hlast. vm_compute. lia.
Defined.

Lemma negative_budget_no_attempt_witness :
  @sendPrompt Scenario.posix Scenario.chat Scenario.question (-1)
    Scenario.agent_recovers
  = {| effects := [];
       outcome := Rejected (Error (lit "Failed after retries")) |}.
Proof.
  apply (@negative_budget_no_attempt Scenario.posix Scenario.chat
           Scenario.question (-1)%Z Scenario.agent_recovers).
  reflexivity.
Defined.

Lemma spawn_failure_not_retried_witness :
  @sendPrompt Scenario.posix Scenario.chat Scenario.question (Z.of_nat 3)
    Observe.agent_missing
  = {| effects := [Spawn Scenario.chat Scenario.question];
       outcome := Rejected (Error (lit "Spawn failed: spawn cursor ENOENT")) |}.
Proof.
  apply (@spawn_failure_not_retried Scenario.posix Scenario.chat
           Scenario.question 3 Observe.agent_missing
           (lit "spawn cursor ENOENT")).
  reflexivity.
Defined.

Lemma silent_failure_not_retried_witness :
  @sendPrompt Scenario.posix Scenario.chat Scenario.question (Z.of_nat 3)
    Observe.agent_silent
  = {| effects := [Spawn Scenario.chat Scenario.question];
       outcome := Rejected {| message := lit "Unknown error";
                              retryable := Some false |} |}.
Proof.
  apply (@silent_failure_not_retried Scenario.posix Scenario.chat
           Scenario.question 3 Observe.agent_silent None);
    [discriminate|reflexivity].
Defined.

End AgentFacts.

(** ** The session store, further *)

Module StoreMore.
Import Store.

Lemma Files_eq (a b : Files) :
  stateFile a = stateFile b -> channelFiles a = channelFiles b -> a = b.
Proof. destruct a, b; simpl; intros -> ->; reflexivity. Qed.

(** X13.  The cursor written is the cursor read, and the last write
    wins: the store compares no timestamps, so a smaller timestamp
    written later replaces a larger one. *)
Theorem cursor_last_write_wins (c t1 t2 : jsstring) (fs : Files) :
  getLastSeenTs c (setLastSeenTs c t2 fs) = Some t2
  /\ setLastSeenTs c t2 (setLastSeenTs c t1 fs) = setLastSeenTs c t2 fs.
Proof.
  split; [apply StoreFacts.getLastSeenTs_set|].
  apply Files_eq; [|reflexivity].
  unfold setLastSeenTs, loadPollState, savePollState; cbn [stateFile].
  apply map_eq. intros i.
  destruct (stateFile fs !! c) eqn:E.
  - rewrite lookup_alter_eq, E. cbn [fmap option_fmap option_map].
    destruct (decide (i = c)) as [->|Hne].
    + rewrite !lookup_alter_eq, E. reflexivity.
    + rewrite !lookup_alter_ne by congruence. reflexivity.
  - rewrite lookup_insert_eq.
    destruct (decide (i = c)) as [->|Hne].
    + rewrite lookup_alter_eq, !lookup_insert_eq. reflexivity.
    + rewrite lookup_alter_ne, !lookup_insert_ne by congruence. reflexivity.
Qed.

(** X14.  The session saved is the session loaded, and saving replaces
    the record of the channel as a whole. *)
Theorem session_replaced_wholesale (c : jsstring) (d1 d2 : ChannelData)
        (fs : Files) :
  loadChannelData c (saveChannelData c d2 fs) = Some d2
  /\ saveChannelData c d2 (saveChannelData c d1 fs) = saveChannelData c d2 fs.
Proof.
  split.
  - unfold loadChannelData, saveChannelData; cbn. apply lookup_insert_eq.
  - apply Files_eq; [reflexivity|].
    unfold saveChannelData; cbn. apply insert_insert_eq.
Qed.

(** X15.  Deleting the session of a channel removes it, also right after
    it was saved; it changes nothing when the channel has no session, and
    never touches the session of another channel. *)
Theorem session_deleted (c c' : jsstring) (d : ChannelData) (fs : Files) :
  loadChannelData c (deleteChannelData c fs) = None
  /\ loadChannelData c (deleteChannelData c (saveChannelData c d fs)) = None
  /\ (loadChannelData c fs = None -> deleteChannelData c fs = fs)
  /\ (c' <> c ->
      loadChannelData c' (deleteChannelData c fs) = loadChannelData c' fs).
Proof.
  unfold loadChannelData, deleteChannelData, saveChannelData; cbn.
  split; [apply lookup_delete_eq|]. split; [apply lookup_delete_eq|]. split.
  - intros Hnone. apply Files_eq; [reflexivity|]. cbn.
    apply delete_id. exact Hnone.
  - intros Hne. apply lookup_delete_ne. congruence.
Qed.

Lemma session_deleted_witness :
  loadChannelData Scenario.C2 (deleteChannelData Scenario.C2 Scenario.files0)
  = None
  /\ deleteChannelData Scenario.C2 Scenario.files0 = Scenario.files0
  /\ loadChannelData Scenario.C1
       (deleteChannelData Scenario.C2 Scenario.files0)
     = loadChannelData Scenario.C1 Scenario.files0.
Proof.
  destruct (session_deleted Scenario.C2 Scenario.C1 Observe.session2
              Scenario.files0) as (Hgone & _ & Hnoop & Hother).
  split; [exact Hgone|]. split.
  - apply Hnoop. reflexivity.
  - apply Hother. discriminate.
Defined.

End StoreMore.

(** ** The chat client *)

Module SlackFacts.
Import Slack.

Lemma omap_Forall {A B} (f : A -> option B) (P : B -> Prop) (l : list A) :
  (forall a b, f a = Some b -> P b) -> Forall P (omap f l).
Proof.
  intros Hf. induction l as [|a l IH]; [constructor|].
  cbn. destruct (f a) as [b|] eqn:E; [constructor; [exact (Hf a b E)|exact IH]|exact IH].
Qed.


Lemma historyMessages_stamped (result : option (list ApiMessage)) :
  Forall (fun m => nonEmpty (ts m) = true) (historyMessages result).
Proof.
  destruct result as [msgs|]; [|constructor]. cbn [historyMessages].
  apply Forall_rev, omap_Forall. intros a m.
  destruct (api_ts a) as [t|]; [|discriminate].
  destruct (api_text a); [|discriminate].
  destruct (nonEmpty t) eqn:Et; [|discriminate].
  intros [= <-]. exact Et.
Qed.



(** X18.  [removeBotMention] returns a trimmed text, and for a text that
    does not mention the bot it returns the text trimmed and nothing
    else. *)
Theorem removeBotMention_trims (botUserId : jsstring) (message : jsstring) :
  trim (removeBotMention botUserId message) = removeBotMention botUserId message
  /\ (mentionsBot botUserId (Some message) = false ->
      removeBotMention botUserId message = trim message).
Proof.
  unfold removeBotMention. split; [apply StringFacts.trim_idempotent|].
  unfold mentionsBot. intros Hno.
  destruct message as [|c t]; [reflexivity|].
  cbn [nonEmpty andb] in Hno.
  rewrite (StringFacts.removeAll_absent _ _ Hno). reflexivity.
Qed.

Lemma removeBotMention_trims_witness :
  trim (removeBotMention (lit "U1") (lit "  /projects "))
  = removeBotMention (lit "U1") (lit "  /projects ")
  /\ removeBotMention (lit "U1") (lit "  /projects ") = lit "/projects".
Proof.
  destruct (removeBotMention_trims (lit "U1") (lit "  /projects "))
    as [Htrim Hsame].
  split; [exact Htrim|]. rewrite Hsame; reflexivity.
Defined.

End SlackFacts.

(** ** The bot, further *)

Module BotFacts.
Import Bot Observe.

(** *** What every computation keeps *)

Section Keeps.
Context `{Platform}.
Variable env : Env.
Variable R : World -> World -> Prop.
Hypothesis R_refl : forall w, R w w.
Hypothesis R_trans : forall a b c, R a b -> R b c -> R a c.
(** [R] does not look at the trace nor at the count of processes. *)
Hypothesis R_io :
  forall w tr sp,
    R w {| files := files w; trace := tr; spawned := sp;
           dispatched := dispatched w |}.

Lemma kept_ret {A} (a : A) : keeps R (mret a).
Proof. intros w. apply R_refl. Qed.

Lemma kept_bind {A B} (m : M A) (k : A -> M B) :
  keeps R m -> (forall a, keeps R (k a)) -> keeps R (m ≫= k).
Proof.
  intros Hm Hk w. unfold mbind, M_bind. specialize (Hm w).
  destruct (m w) as [[a|e] w1]; simpl in *; [|exact Hm].
  eapply R_trans; [exact Hm|apply Hk].
Qed.

Lemma kept_try_catch {A} (m : M A) (h : JsError -> M A) :
  keeps R m -> (forall e, keeps R (h e)) -> keeps R (try_catch m h).
Proof.
  intros Hm Hh w. unfold try_catch. specialize (Hm w).
  destruct (m w) as [[a|e] w1]; simpl in *; [exact Hm|].
  eapply R_trans; [exact Hm|apply Hh].
Qed.

Lemma kept_call {X} (ev : Event) (answer : nat -> Reply X) :
  keeps R (call ev answer).
Proof. intros w. unfold call, record. destruct (answer _); apply R_io. Qed.

Lemma kept_read {X} (f : Store.Files -> X) : keeps R (read f).
Proof. intros w. apply R_refl. Qed.

Lemma kept_createChat (workspace : jsstring) :
  keeps R (createChat_call env workspace).
Proof.
  intros w. unfold createChat_call. destruct (createChat _); apply R_io.
Qed.

Lemma kept_sendPrompt (chatId workspace prompt : jsstring) :
  keeps R (sendPrompt_call env chatId workspace prompt).
Proof.
  intros w. unfold sendPrompt_call. destruct (outcome _); apply R_io.
Qed.

End Keeps.

(** Breaks a computation into its calls, for a relation [R] with the
    three properties above. *)
Ltac kept Hrefl Htrans Hio :=
  repeat first
    [ apply (kept_ret _ Hrefl)
    | apply (kept_read _ Hrefl)
    | apply (kept_call _ Hio)
    | apply (kept_createChat _ _ Hio)
    | apply (kept_sendPrompt _ _ Hio)
    | solve [auto]
    | apply (kept_bind _ Htrans); [|intros ?]
    | apply (kept_try_catch _ Htrans); [|intros ?]
    | match goal with
      | |- keeps _ (if ?b then _ else _) => destruct b
      | |- keeps _ (match ?x with _ => _ end) => destruct x
      end ].

Lemma same_files_refl (w : World) : same_files w w.
Proof. reflexivity. Qed.

Lemma same_files_trans (a b c : World) :
  same_files a b -> same_files b c -> same_files a c.
Proof. unfold same_files. congruence. Qed.

Lemma same_files_io (w : World) tr sp :
  same_files w {| files := files w; trace := tr; spawned := sp;
                  dispatched := dispatched w |}.
Proof. reflexivity. Qed.

Section Handlers.
Context `{Platform}.
Variable env : Env.

Lemma files_handleProjectsCommand (c : jsstring) :
  keeps same_files (handleProjectsCommand env c).
Proof.
  unfold handleProjectsCommand, say, postMessage.
  kept same_files_refl same_files_trans same_files_io.
Qed.

Lemma files_handleDiffCommand (c : jsstring) (data : option Store.ChannelData) :
  keeps same_files (handleDiffCommand env c data).
Proof.
  unfold handleDiffCommand, say, postMessage.
  kept same_files_refl same_files_trans same_files_io.
Qed.

Lemma files_handlePrompt (c ts prompt : jsstring) (data : Store.ChannelData) :
  keeps same_files (handlePrompt env c ts prompt data).
Proof.
  unfold handlePrompt, say, postMessage, addReaction, removeReaction.
  kept same_files_refl same_files_trans same_files_io.
Qed.

(** X26.  Only a start-session command changes the store: the handling
    of any other message, whether it lists projects, shows a diff, sends
    a prompt to the agent or only answers with the usage hint, leaves
    the cursors and the sessions of all channels as they are. *)
Theorem only_new_command_writes (c : jsstring) (m : Slack.SlackMessage)
        (w : World) :
  Regex.match_new
    (Slack.removeBotMention (slackBotUserId env) (default [] (Slack.text m)))
  = None ->
  files (snd (processMessage env c m w)) = files w.
Proof.
  intros Hnot.
  assert (Hk : keeps same_files (processMessage env c m)).
  { unfold processMessage. cbv zeta. rewrite Hnot.
    pose proof files_handleProjectsCommand.
    pose proof files_handleDiffCommand.
    pose proof files_handlePrompt.
    assert (keeps same_files (note_dispatch c m)) by (intros ?; reflexivity).
    unfold say, postMessage.
    kept same_files_refl same_files_trans same_files_io. }
  exact (Hk w).
Qed.

(** *** Failures stay where they happen *)

Lemma pollChannel_completes (c : jsstring) (w : World) :
  fst (pollChannel env c w) = Normal tt.
Proof.
  rewrite PollLoop.pollChannel_unfold. cbv zeta.
  destruct (conversations_history env _ c _); [|reflexivity].
  destruct (negb _ && _); [destruct (last _)|]; reflexivity.
Qed.

Lemma poll_each_channel (channels : list Slack.SlackChannel) :
  forall w,
    for_each channels (fun channel => pollChannel env (Slack.id channel)) w
    = (Normal tt, poll_each env channels w).
Proof.
  induction channels as [|ch channels IH]; intros w; [reflexivity|].
  cbn [for_each poll_each fold_left]. unfold mbind, M_bind.
  pose proof (pollChannel_completes (Slack.id ch) w) as Hc.
  destruct (pollChannel env (Slack.id ch) w) as [r w1]. cbn [fst snd] in *.
  rewrite Hc. apply IH.
Qed.

Lemma poll_unfold (w : World) :
  poll env w
  = (Normal tt,
     match conversations_list env (List.length (trace w)) with
     | Returns result =>
         poll_each env (Slack.memberChannels result) (record EvList w)
     | Raises _ => record EvList w
     end).
Proof.
  unfold poll, listBotChannels, try_catch, mbind, M_bind, call.
  destruct (conversations_list env _) as [result|e]; [|reflexivity].
  cbv beta iota. unfold mret, M_ret. cbv beta iota.
  rewrite poll_each_channel. reflexivity.
Qed.


End Handlers.

(** *** The command forms *)

(** X19.  The three command forms exclude one another: a text is at most
    one of a list-projects, a start-session and a show-diff command. *)
Theorem command_forms_exclusive (s : jsstring) :
  ((if Regex.test_command (lit "/projects") s then 1 else 0)
   + (if bool_decide (is_Some (Regex.match_new s)) then 1 else 0)
   + (if Regex.test_command (lit "/diff") s then 1 else 0) <= 1)%nat.
Proof.
  unfold Regex.test_command, Regex.match_new.
  change (lit "/projects") with (47 :: 112 :: lit "rojects").
  change (lit "/new") with (47 :: 110 :: lit "ew").
  change (lit "/diff") with (47 :: 100 :: lit "iff").
  destruct s as [|a [|b s]]; cbn [stripPrefix].
  - cbn. lia.
  - destruct (47 =? a); cbn; lia.
  - destruct (47 =? a); [|cbn; lia].
    destruct (N.eqb_spec 112 b) as [<-|Hp].
    + cbn [N.eqb Pos.eqb]. destruct (stripPrefix _ s) as [rest|];
        [destruct (forallb isSpace rest)|]; cbn; lia.
    + destruct (N.eqb_spec 110 b) as [<-|Hn].
      * cbn [N.eqb Pos.eqb].
        destruct (bool_decide _); cbn; lia.
      * destruct (stripPrefix (lit "iff") s) as [rest|];
          destruct (100 =? b); try destruct (forallb isSpace rest); cbn; lia.
Qed.

(** *** Computations that never throw *)

Lemma completes_ret {A} (a : A) : completes (mret a : M A).
Proof. intros w. exists a. reflexivity. Qed.

Lemma completes_bind {A B} (m : M A) (k : A -> M B) :
  completes m -> (forall a, completes (k a)) -> completes (m ≫= k).
Proof.
  intros Hm Hk w. unfold mbind, M_bind. destruct (Hm w) as [a Ha].
  destruct (m w) as [r w1]. cbn [fst] in Ha. subst r. apply Hk.
Qed.

(** A [try] whose handler never throws never throws. *)
Lemma completes_try_catch {A} (m : M A) (h : JsError -> M A) :
  (forall e, completes (h e)) -> completes (try_catch m h).
Proof.
  intros Hh w. unfold try_catch.
  destruct (m w) as [[a|e] w1]; [exists a; reflexivity|apply Hh].
Qed.

Lemma completes_read {X} (f : Store.Files -> X) : completes (read f).
Proof. intros w. eexists. reflexivity. Qed.

Lemma completes_write (f : Store.Files -> Store.Files) : completes (write f).
Proof. intros w. eexists. reflexivity. Qed.

Lemma completes_note (c : jsstring) (m : Slack.SlackMessage) :
  completes (note_dispatch c m).
Proof. intros w. eexists. reflexivity. Qed.

Lemma completes_call {X} (ev : Event) (answer : nat -> Reply X) :
  (forall n, exists x, answer n = Returns x) -> completes (call ev answer).
Proof.
  intros Ha w. unfold call. destruct (Ha (List.length (trace w))) as [x ->].
  exists x. reflexivity.
Qed.


(** Breaks a computation into its calls; a [try] is left at its
    handler. *)
Ltac finishes :=
  repeat first
    [ apply completes_ret
    | apply completes_read
    | apply completes_write
    | apply completes_note
    | solve [auto]
    | apply completes_bind; [|intros ?]
    | apply completes_try_catch; intros ?
    | match goal with
      | |- completes (if ?b then _ else _) => destruct b
      | |- completes (match ?x with _ => _ end) => destruct x
      end ].

Section Accepting.
Context `{Platform}.
Variable env : Env.
Hypothesis Haccept : slack_accepts env.

Lemma completes_postMessage (c : jsstring) (text : JsValue) :
  completes (postMessage env c text).
Proof.
  apply completes_call. intros n. apply (proj1 Haccept).
Qed.

Lemma completes_say (c text : jsstring) : completes (say env c text).
Proof.
  unfold say. pose proof completes_postMessage. finishes.
Qed.

Lemma completes_updateMessage (c ts text : jsstring) :
  completes (updateMessage env c ts text).
Proof.
  apply completes_call. intros n. exists tt. apply (proj2 Haccept).
Qed.

Lemma completes_processMessage (c : jsstring) (m : Slack.SlackMessage) :
  completes (processMessage env c m).
Proof.
  pose proof completes_postMessage. pose proof completes_say.
  pose proof completes_updateMessage.
  assert (forall ev (f : nat -> bool),
             completes (call ev (fun n => Returns (f n))))
    by (intros; apply completes_call; eauto).
  unfold processMessage, handleProjectsCommand, handleDiffCommand,
    handleNewCommand, handlePrompt, addReaction, removeReaction.
  cbv zeta. finishes.
Qed.



(** *** Sessions *)

Lemma session_kept_refl (c : jsstring) (w : World) : session_kept c w w.
Proof. intros Hs; exact Hs. Qed.

Lemma session_kept_trans (c : jsstring) (a b d : World) :
  session_kept c a b -> session_kept c b d -> session_kept c a d.
Proof. unfold session_kept. auto. Qed.

Lemma session_kept_io (c : jsstring) (w : World) tr sp :
  session_kept c w {| files := files w; trace := tr; spawned := sp;
                      dispatched := dispatched w |}.
Proof. intros Hs; exact Hs. Qed.

Lemma session_kept_save (c c' : jsstring) (data : Store.ChannelData) :
  keeps (session_kept c') (write (Store.saveChannelData c data)).
Proof.
  intros w Hs. unfold session_of, Store.loadChannelData in *. cbn.
  destruct (decide (c' = c)) as [->|Hne].
  - rewrite lookup_insert_eq. discriminate.
  - rewrite lookup_insert_ne by congruence. exact Hs.
Qed.

(** No message ends a session. *)
Lemma session_kept_processMessage (c c' : jsstring) (m : Slack.SlackMessage) :
  keeps (session_kept c') (processMessage env c m).
Proof.
  pose proof (session_kept_save c c').
  assert (keeps (session_kept c') (note_dispatch c m))
    by (intros ? Hs; exact Hs).
  unfold processMessage, handleProjectsCommand, handleDiffCommand,
    handleNewCommand, handlePrompt, say, postMessage, updateMessage,
    addReaction, removeReaction.
  cbv zeta.
  kept (session_kept_refl c') (session_kept_trans c') (session_kept_io c').
Qed.

(** One turn of the loop in a channel with a session. *)
Lemma pollMessage_in_session (c : jsstring) (m : Slack.SlackMessage)
      (w : World) :
  session_of c w <> None ->
  exists w',
    pollMessage env c m w = (Normal tt, w')
    /\ session_of c w' <> None
    /\ dispatched w'
       = dispatched w ++ (if from_bot m then [] else [(c, m)]).
Proof.
  intros Hs.
  unfold pollMessage, mbind, M_bind, write, read, from_bot.
  cbv beta iota zeta.
  set (w1 := {| files := Store.setLastSeenTs c (Slack.ts m) (files w);
                trace := trace w; spawned := spawned w;
                dispatched := dispatched w |}).
  assert (Hs1 : session_of c w1 = session_of c w) by reflexivity.
  destruct (Slack.present (Slack.bot_id m)).
  - exists w1. split; [reflexivity|]. split; [rewrite Hs1; exact Hs|].
    cbn. rewrite app_nil_r. reflexivity.
  - cbv beta iota.
    change (Store.loadChannelData c (files w1)) with (session_of c w1).
    rewrite Hs1.
    destruct (session_of c w) as [d|] eqn:Ed; [|contradiction].
    cbn [negb andb bool_decide]. rewrite bool_decide_true by eauto.
    cbn [negb andb].
    destruct (completes_processMessage c m w1) as [[] Hdone].
    pose proof (PollLoop.processMessage_frame env c m w1) as [_ Hd].
    pose proof (session_kept_processMessage c c m w1) as Hk.
    destruct (processMessage env c m w1) as [r w2]. cbn [fst snd] in *.
    subst r. exists w2. split; [reflexivity|]. split; [|exact Hd].
    apply Hk. rewrite Hs1. discriminate.
Qed.

Lemma poll_loop_in_session (c : jsstring) (msgs : list Slack.SlackMessage) :
  forall w,
    session_of c w <> None ->
    exists w',
      for_each msgs (pollMessage env c) w = (Normal tt, w')
      /\ session_of c w' <> None
      /\ dispatched w'
         = dispatched w
           ++ map (pair c) (List.filter (fun m => negb (from_bot m)) msgs).
Proof.
  induction msgs as [|m msgs IH]; intros w Hs.
  - exists w. split; [reflexivity|]. split; [exact Hs|].
    cbn. rewrite app_nil_r. reflexivity.
  - destruct (pollMessage_in_session c m w Hs) as (w1 & Hrun & Hs1 & Hd1).
    destruct (IH w1 Hs1) as (w2 & Hrest & Hs2 & Hd2).
    exists w2. cbn [for_each]. unfold mbind, M_bind. rewrite Hrun, Hrest.
    split; [reflexivity|]. split; [exact Hs2|].
    rewrite Hd2, Hd1. cbn [List.filter].
    destruct (from_bot m); cbn [negb map app].
    + rewrite app_nil_r. reflexivity.
    + rewrite <- app_assoc. reflexivity.
Qed.

(** X22.  In a channel that has a session and a cursor, and as long as
    Slack accepts the posts and the updates of the bot, a poll hands
    every fetched message that no bot has sent to [processMessage], each
    once and oldest first, whether it mentions the bot or not; the
    channel still has a session afterwards. *)
Theorem session_hears_every_message (c : jsstring) (w : World) :
  session_of c w <> None ->
  Slack.present (cursor_of c w) = true ->
  let w' := snd (pollChannel env c w) in
  dispatched w'
  = dispatched w
    ++ map (pair c)
           (List.filter (fun m => negb (from_bot m)) (fetched env c w))
  /\ session_of c w' <> None.
Proof.
  intros Hs Hcur. rewrite PollLoop.pollChannel_unfold. unfold fetched.
  fold (cursor_of c w). cbv zeta. rewrite Hcur. cbn [negb andb].
  destruct (conversations_history env _ c _) as [result|e].
  - set (w1 := record _ w).
    destruct (poll_loop_in_session c (Slack.historyMessages result) w1 Hs)
      as (w2 & Hrun & Hs2 & Hd2).
    rewrite Hrun. cbn [snd]. split; [exact Hd2|exact Hs2].
  - cbn. rewrite app_nil_r. split; [reflexivity|exact Hs].
Qed.

End Accepting.

(** *** Channels without session *)

Section Polls.
Context `{Platform}.
Variable env : Env.

(** One turn of the loop for a message not addressed to the bot, in a
    channel without session: only the cursor moves. *)
Lemma pollMessage_passes (c : jsstring) (m : Slack.SlackMessage) (w : World) :
  session_of c w = None ->
  Slack.mentionsBot (slackBotUserId env) (Slack.text m) = false ->
  pollMessage env c m w
  = (Normal tt,
     {| files := Store.setLastSeenTs c (Slack.ts m) (files w);
        trace := trace w; spawned := spawned w;
        dispatched := dispatched w |}).
Proof.
  intros Hs Hm.
  unfold pollMessage, mbind, M_bind, write, read. cbv beta iota zeta.
  set (w1 := {| files := Store.setLastSeenTs c (Slack.ts m) (files w);
                trace := trace w; spawned := spawned w;
                dispatched := dispatched w |}).
  assert (Hs1 : session_of c w1 = None) by exact Hs.
  destruct (Slack.present (Slack.bot_id m)); [reflexivity|].
  cbv beta iota.
  change (Store.loadChannelData c (files w1)) with (session_of c w1).
  rewrite Hs1, Hm. reflexivity.
Qed.

Lemma poll_loop_passes (c : jsstring) (msgs : list Slack.SlackMessage) :
  Forall (fun m => Slack.mentionsBot (slackBotUserId env) (Slack.text m)
                   = false) msgs ->
  forall w,
    session_of c w = None ->
    let rw := for_each msgs (pollMessage env c) w in
    fst rw = Normal tt
    /\ dispatched (snd rw) = dispatched w
    /\ trace (snd rw) = trace w
    /\ spawned (snd rw) = spawned w
    /\ Store.channelFiles (files (snd rw)) = Store.channelFiles (files w).
Proof.
  induction 1 as [|m msgs Hm _ IH]; intros w Hs; [cbn; auto|].
  cbn [for_each]. unfold mbind, M_bind.
  rewrite (pollMessage_passes c m w Hs Hm).
  exact (IH {| files := Store.setLastSeenTs c (Slack.ts m) (files w);
               trace := trace w; spawned := spawned w;
               dispatched := dispatched w |} Hs).
Qed.

(** X23.  In a channel without session the bot stays silent until it is
    mentioned: a poll that fetches no message mentioning the bot
    dispatches nothing, calls nothing but the history fetch, spawns no
    process and creates no session. *)
Theorem unaddressed_channel_silent (c : jsstring) (w : World) :
  session_of c w = None ->
  Forall (fun m => Slack.mentionsBot (slackBotUserId env) (Slack.text m)
                   = false) (fetched env c w) ->
  let w' := snd (pollChannel env c w) in
  dispatched w' = dispatched w
  /\ trace w' = trace w ++ [EvHistory c (truthy_ts (cursor_of c w))]
  /\ spawned w' = spawned w
  /\ Store.channelFiles (files w') = Store.channelFiles (files w).
Proof.
  intros Hs. rewrite PollLoop.pollChannel_unfold. unfold fetched.
  fold (cursor_of c w). cbv zeta.
  destruct (conversations_history env _ c _) as [result|e]; [|cbn; auto].
  intros Hquiet.
  destruct (negb _ && _).
  - destruct (last _); cbn; auto.
  - cbn [snd].
    apply (poll_loop_passes c _ Hquiet
             (record (EvHistory c (truthy_ts (cursor_of c w))) w) Hs).
Qed.

(** *** The cursor *)

Lemma fetched_stamped (c : jsstring) (w : World) :
  Forall (fun m => nonEmpty (Slack.ts m) = true) (fetched env c w).
Proof.
  unfold fetched.
  destruct (conversations_history env _ c _); [|constructor].
  apply SlackFacts.historyMessages_stamped.
Qed.

(** Where the cursor is after a poll: where it was when nothing was
    fetched, at a fetched message otherwise. *)
Lemma pollChannel_cursor_source (c : jsstring) (w : World) :
  let w' := snd (pollChannel env c w) in
  match fetched env c w with
  | [] => cursor_of c w' = cursor_of c w
  | _ :: _ =>
      exists m, In m (fetched env c w) /\ cursor_of c w' = Some (Slack.ts m)
  end.
Proof.
  rewrite PollLoop.pollChannel_unfold. unfold fetched. fold (cursor_of c w).
  cbv zeta.
  destruct (conversations_history env _ c _) as [result|e]; [|reflexivity].
  set (msgs := Slack.historyMessages result). clearbody msgs.
  destruct (negb _ && _).
  - destruct (last msgs) as [latest|] eqn:El; cbn [snd].
    + apply last_Some in El. destruct El as [pre ->].
      destruct pre; eexists; (split; [|apply StoreFacts.getLastSeenTs_set]);
        apply in_elt.
    + apply last_None in El. rewrite El. reflexivity.
  - cbn [snd].
    pose proof (PollLoop.poll_loop_cursor env c msgs
                  (record (EvHistory c (truthy_ts (cursor_of c w))) w)) as Hloop.
    cbv zeta in Hloop.
    destruct (for_each msgs _ _) as [[[]|e] w2]; cbn [fst snd] in *.
    + destruct (last msgs) as [latest|] eqn:El.
      * apply last_Some in El. destruct El as [pre El].
        destruct msgs as [|m0 msgs0]; [destruct pre; discriminate|].
        exists latest. split; [rewrite El; apply in_elt|exact Hloop].
      * apply last_None in El. rewrite El. exact Hloop.
    + destruct Hloop as (pre & m & post & w_m & Hsplit & _ & Hcur).
      destruct msgs as [|m0 msgs0]; [destruct pre; discriminate|].
      exists m. split; [rewrite Hsplit; apply in_elt|exact Hcur].
Qed.

Lemma pollChannel_present (c c' : jsstring) (w : World) :
  Slack.present (cursor_of c w) = true ->
  Slack.present (cursor_of c (snd (pollChannel env c' w))) = true.
Proof.
  intros Hcur. destruct (decide (c' = c)) as [->|Hne].
  - pose proof (pollChannel_cursor_source c w) as Hsrc. cbv zeta in Hsrc.
    pose proof (fetched_stamped c w) as Hts.
    destruct (fetched env c w) as [|m0 l]; [rewrite Hsrc; exact Hcur|].
    destruct Hsrc as (m & Hin & ->).
    rewrite List.Forall_forall in Hts. exact (Hts m Hin).
  - rewrite (PollLoop.pollChannel_other env c c' w Hne). exact Hcur.
Qed.

Lemma poll_each_present (c : jsstring) (channels : list Slack.SlackChannel) :
  forall w,
    Slack.present (cursor_of c w) = true ->
    Slack.present (cursor_of c (poll_each env channels w)) = true.
Proof.
  induction channels as [|ch channels IH]; intros w Hcur; [exact Hcur|].
  cbn [poll_each fold_left]. apply IH, pollChannel_present, Hcur.
Qed.

(** X24.  The first-poll baseline happens once: a channel whose cursor
    is set keeps a set, non-empty cursor through every poll cycle,
    whatever the channels polled and whatever fails, and a poll of a
    channel that fetches a message leaves the channel with a cursor. *)
Theorem baseline_only_once (c : jsstring) (w : World) :
  Slack.present (cursor_of c w) = true \/ fetched env c w <> [] ->
  Slack.present (cursor_of c (snd (pollChannel env c w))) = true
  /\ (Slack.present (cursor_of c w) = true ->
      Slack.present (cursor_of c (snd (poll env w))) = true).
Proof.
  intros Hpre. split.
  - pose proof (pollChannel_cursor_source c w) as Hsrc. cbv zeta in Hsrc.
    pose proof (fetched_stamped c w) as Hts.
    destruct (fetched env c w) as [|m0 l].
    + rewrite Hsrc. destruct Hpre as [Hcur|Hne]; [exact Hcur|congruence].
    + destruct Hsrc as (m & Hin & ->).
      rewrite List.Forall_forall in Hts. exact (Hts m Hin).
  - intros Hcur. rewrite poll_unfold. cbn [snd].
    destruct (conversations_list env _); [|exact Hcur].
    apply poll_each_present. exact Hcur.
Qed.

End Polls.

(** *** The order of the project listing *)

Lemma code_unit_leb_total (a b : jsstring) :
  code_unit_leb a b = false -> code_unit_leb b a = true.
Proof.
  revert b. induction a as [|x a IH]; intros [|y b]; cbn; try discriminate; auto.
  destruct (N.ltb_spec x y); [discriminate|]. cbn.
  destruct (N.eqb_spec x y) as [->|Hne]; cbn.
  - intros Hab. rewrite N.ltb_irrefl, N.eqb_refl. cbn. apply IH, Hab.
  - intros _. assert (Hlt : (y <? x) = true) by (apply N.ltb_lt; lia).
    rewrite Hlt. reflexivity.
Qed.

Lemma code_unit_leb_trans (a b c : jsstring) :
  code_unit_leb a b = true -> code_unit_leb b c = true ->
  code_unit_leb a c = true.
Proof.
  revert b c. induction a as [|x a IH]; intros [|y b] [|z c]; cbn;
    try discriminate; auto.
  intros Hab Hbc.
  apply orb_true_iff in Hab. apply orb_true_iff in Hbc. apply orb_true_iff.
  destruct Hab as [Hab|Hab]; [apply N.ltb_lt in Hab|
    apply andb_true_iff in Hab; destruct Hab as [Hxy Hab];
    apply N.eqb_eq in Hxy; subst y];
  (destruct Hbc as [Hbc|Hbc]; [apply N.ltb_lt in Hbc|
    apply andb_true_iff in Hbc; destruct Hbc as [Hyz Hbc];
    apply N.eqb_eq in Hyz; subst z]).
  - left. apply N.ltb_lt. lia.
  - left. apply N.ltb_lt. lia.
  - left. apply N.ltb_lt. lia.
  - right. rewrite N.eqb_refl. cbn. eapply IH; eassumption.
Qed.

Lemma insert_sorted_perm (x : jsstring) (l : list jsstring) :
  Permutation (insert_sorted x l) (x :: l).
Proof.
  induction l as [|y l IH]; cbn; [reflexivity|].
  destruct (code_unit_leb x y); [reflexivity|].
  rewrite IH. apply perm_swap.
Qed.

Lemma sort_perm (l : list jsstring) : Permutation (sort l) l.
Proof.
  induction l as [|x l IH]; cbn; [reflexivity|].
  rewrite insert_sorted_perm, IH. reflexivity.
Qed.

Lemma insert_sorted_HdRel (a x : jsstring) (l : list jsstring) :
  code_unit_leb a x = true ->
  HdRel (fun a b => code_unit_leb a b = true) a l ->
  HdRel (fun a b => code_unit_leb a b = true) a (insert_sorted x l).
Proof.
  intros Hax Hl. destruct l as [|y l]; cbn; [constructor; exact Hax|].
  destruct (code_unit_leb x y); constructor; [exact Hax|].
  inversion Hl; assumption.
Qed.

Lemma insert_sorted_Sorted (x : jsstring) (l : list jsstring) :
  Sorted (fun a b => code_unit_leb a b = true) l ->
  Sorted (fun a b => code_unit_leb a b = true) (insert_sorted x l).
Proof.
  induction 1 as [|y l Hl IH Hhd]; cbn; [repeat constructor|].
  destruct (code_unit_leb x y) eqn:E.
  - constructor; [constructor; assumption|constructor; exact E].
  - constructor; [exact IH|].
    apply insert_sorted_HdRel; [apply code_unit_leb_total, E|exact Hhd].
Qed.

Lemma sort_Sorted (l : list jsstring) :
  StronglySorted (fun a b => code_unit_leb a b = true) (sort l).
Proof.
  apply Sorted_StronglySorted.
  - intros a b c. apply code_unit_leb_trans.
  - induction l as [|x l IH]; cbn; [constructor|].
    apply insert_sorted_Sorted, IH.
Qed.

(** *** The command handlers *)

Section Commands.
Context `{Platform}.
Variable env : Env.

(** The reaction calls swallow their failures. *)
Lemma addReaction_always (c ts emoji : jsstring) (w : World) :
  addReaction env c ts emoji w
  = (Normal tt, record (EvReactionAdd c ts emoji) w).
Proof.
  unfold addReaction, try_catch, call.
  destruct (reactions_add env _ c ts emoji) as [[]|e]; reflexivity.
Qed.

Lemma removeReaction_always (c ts emoji : jsstring) (w : World) :
  removeReaction env c ts emoji w
  = (Normal tt, record (EvReactionRemove c ts emoji) w).
Proof.
  unfold removeReaction, try_catch, call.
  destruct (reactions_remove env _ c ts emoji) as [[]|e]; reflexivity.
Qed.

(** X25.  A start-session command for a path that exists, once its
    status message is posted, spawns exactly one agent process.  When
    that process yields a chat identifier, the session of the channel
    becomes the resolved path, that identifier and the current date,
    replacing any earlier session, whether or not the confirmation can
    be delivered afterwards; when it fails, the store is left as it
    was, an earlier session of the channel included. *)
Theorem new_session_recorded (c name : jsstring) (w : World)
        (statusTs : option jsstring) :
  let projectPath := resolveProjectPath env name in
  let n := List.length (trace w) in
  fs_existsSync env n projectPath = true ->
  chat_postMessage env (n + 1) c
    (JString (hourglass ++ lit " Creating conversation for `"
              ++ projectPath ++ lit "`..."))
  = Returns statusTs ->
  let w' := snd (handleNewCommand env c name w) in
  spawned w' = S (spawned w)
  /\ match createChat (agent_process env (spawned w)) with
     | Resolved chatId =>
         files w'
         = Store.saveChannelData c
             {| Store.projectPath := projectPath;
                Store.cursorChatId := chatId;
                Store.createdAt := Date_toISOString env (n + 3) |}
             (files w)
     | Rejected _ => files w' = files w
     end.
Proof.
  cbv zeta. intros Hex Hpost.
  unfold handleNewCommand, say, postMessage, updateMessage, createChat_call,
    try_catch, mbind, M_bind, call, write, mret, M_ret.
  cbv zeta. rewrite Hex. cbv beta iota. cbn [negb record trace].
  rewrite length_app. cbn [List.length]. rewrite Hpost.
  cbv beta iota. cbn [record files trace spawned dispatched].
  destruct (createChat (agent_process env (spawned w))) as [chatId|e];
    cbv beta iota; cbn [record files trace spawned dispatched];
    rewrite ?length_app; cbn [List.length];
    replace (List.length (trace w) + 1 + 1 + 1)%nat
      with (List.length (trace w) + 3)%nat by lia.
  - destruct (truthy_ts statusTs) as [t|]; [|split; reflexivity].
    destruct (chat_update env _ c t _) as [[]|e]; [split; reflexivity|].
    cbv beta iota. cbn [record files trace spawned dispatched].
    destruct (chat_update env _ c t _) as [[]|e']; split; reflexivity.
  - destruct (truthy_ts statusTs) as [t|].
    + destruct (chat_update env _ c t _) as [[]|e']; split; reflexivity.
    + match goal with
      | |- context [match ?x with Returns _ => _ | Raises _ => _ end] =>
          destruct x
      end; split; reflexivity.
Qed.

(** X27.  Every prompt is acknowledged and answered: [handlePrompt]
    first adds the hourglass reaction, then runs the agent, spawning at
    least one and at most four processes and calling nothing else
    meanwhile, then removes the hourglass reaction, and the last thing
    it does is to post to the channel, whatever the agent returns and
    whatever Slack refuses. *)
Theorem prompt_acknowledged (c ts prompt : jsstring) (data : Store.ChannelData)
        (w : World) :
  let w' := snd (handlePrompt env c ts prompt data w) in
  exists effs rest text,
    trace w'
    = trace w ++ [EvReactionAdd c ts (lit "hourglass_flowing_sand")]
      ++ map EvAgent effs
      ++ [EvReactionRemove c ts (lit "hourglass_flowing_sand")]
      ++ rest ++ [EvPost c text]
    /\ (1 <= spawn_count effs <= 4)%nat
    /\ spawned w' = (spawned w + spawn_count effs)%nat.
Proof.
  cbv zeta.
  unfold handlePrompt, say, postMessage, mbind, M_bind, try_catch, mret, M_ret.
  rewrite addReaction_always. unfold sendPrompt_call. cbv zeta.
  cbn [record spawned trace files dispatched].
  set (run := sendPrompt _ _ _ _).
  assert (Hn : (1 <= spawn_count (effects run) <= 4)%nat).
  { subst run. change 3%Z with (Z.of_nat 3).
    destruct (AgentFacts.sendPrompt_shape (Store.cursorChatId data) prompt 3
                (fun k => agent_process env (spawned w + k)%nat))
      as (n & Hle & -> & _).
    cbn [effects]. rewrite RetryProtocol.spawn_count_schedule. lia. }
  exists (effects run).
  destruct (outcome run) as [v|e]; cbv beta iota.
  - rewrite removeReaction_always, addReaction_always. unfold call.
    cbn [record spawned trace files dispatched].
    match goal with
    | |- context [match ?x with Returns _ => _ | Raises _ => _ end] =>
        destruct x
    end; cbv beta iota.
    + exists [EvReactionAdd c ts (lit "white_check_mark")], v.
      cbn [snd record spawned trace]. rewrite <- !app_assoc.
      split; [reflexivity|]. split; [exact Hn|reflexivity].
    + rewrite removeReaction_always, addReaction_always.
      cbn [record spawned trace files dispatched].
      match goal with
      | |- context [match ?x with Returns _ => _ | Raises _ => _ end] =>
          destruct x
      end; cbv beta iota;
        (eexists [EvReactionAdd c ts (lit "white_check_mark"); EvPost c v;
                  EvReactionRemove c ts (lit "hourglass_flowing_sand");
                  EvReactionAdd c ts (lit "x")], _;
         cbn [snd record spawned trace]; rewrite <- !app_assoc;
         split; [reflexivity|]; split; [exact Hn|reflexivity]).
  - rewrite removeReaction_always, addReaction_always. unfold call.
    cbn [record spawned trace files dispatched].
    match goal with
    | |- context [match ?x with Returns _ => _ | Raises _ => _ end] =>
        destruct x
    end; cbv beta iota;
      (eexists [EvReactionAdd c ts (lit "x")], _;
       cbn [snd record spawned trace]; rewrite <- !app_assoc;
       split; [reflexivity|]; split; [exact Hn|reflexivity]).
Qed.

(** X28.  When the base directory can be read, the first thing
    [handleProjectsCommand] posts is the listing of its directories
    whose name does not start with a dot: each of them once, nothing
    else, in the order of their UTF-16 code units. *)
Theorem projects_in_order (c : jsstring) (w : World) (entries : list Dirent) :
  nonEmpty (baseProjectPath env) = true ->
  fs_readdirSync env (List.length (trace w)) (baseProjectPath env)
  = Returns entries ->
  exists dirs rest,
    trace (snd (handleProjectsCommand env c w))
    = trace w ++ [EvReaddir (baseProjectPath env);
                  EvPost c (JString (projects_reply (baseProjectPath env) dirs))]
      ++ rest
    /\ Permutation dirs (visible_dirs entries)
    /\ StronglySorted (fun a b => code_unit_leb a b = true) dirs.
Proof.
  intros Hbase Hread. exists (sort (visible_dirs entries)).
  assert (Hgoal : exists rest,
    trace (snd (handleProjectsCommand env c w))
    = trace w ++ [EvReaddir (baseProjectPath env);
                  EvPost c (JString (projects_reply (baseProjectPath env)
                                       (sort (visible_dirs entries))))]
      ++ rest).
  { unfold handleProjectsCommand, say, postMessage, try_catch, mbind, M_bind,
      call, mret, M_ret, projects_reply.
    rewrite Hbase. cbv beta iota zeta. cbn [negb]. rewrite Hread.
    cbv beta iota. fold (visible_dirs entries).
    destruct (List.length (sort (visible_dirs entries)) =? 0)%nat;
      cbn [record trace];
      repeat match goal with
      | |- context [match ?x with Returns _ => _ | Raises _ => _ end] =>
          destruct x; cbv beta iota; cbn [record trace snd]
      end; rewrite <- ?app_assoc; cbn [app]; eexists; f_equal; f_equal;
      f_equal; try reflexivity; try (symmetry; apply app_nil_r). }
  destruct Hgoal as [rest Hrest]. exists rest.
  split; [exact Hrest|]. split; [apply sort_perm|apply sort_Sorted].
Qed.

End Commands.

(** *** Sample runs *)

Lemma only_new_command_writes_witness :
  files (snd (@processMessage Scenario.posix Scenario.env_quiet Scenario.C1
                (Scenario.message "102.0" "/projects") Scenario.world0))
  = Scenario.files0.
Proof.
  apply (@only_new_command_writes Scenario.posix Scenario.env_quiet
           Scenario.C1 (Scenario.message "102.0" "/projects")
           Scenario.world0).
  reflexivity.
Defined.


Lemma session_hears_every_message_witness :
  let w' := snd (@pollChannel Scenario.posix Scenario.env_quiet Scenario.C1
                   Scenario.world0) in
  dispatched w' = [(Scenario.C1, Scenario.message "101.0" "hello")]
  /\ session_of Scenario.C1 w' <> None.
Proof.
  apply (@session_hears_every_message Scenario.posix Scenario.env_quiet).
  - split; [intros; eexists; reflexivity|intros; reflexivity].
  - intros Hx. vm_compute in Hx. discriminate.
  - reflexivity.
Defined.

Lemma unaddressed_channel_silent_witness :
  let w' := snd (@pollChannel Scenario.posix Scenario.env_quiet Scenario.C1
                   Scenario.world_no_session) in
  dispatched w' = []
  /\ trace w' = [EvHistory Scenario.C1 (Some (lit "100.0"))]
  /\ spawned w' = 0%nat
  /\ Store.channelFiles (files w') = ∅.
Proof.
  apply (@unaddressed_channel_silent Scenario.posix Scenario.env_quiet
           Scenario.C1 Scenario.world_no_session).
  - reflexivity.
  - repeat constructor.
Defined.

Lemma baseline_only_once_witness :
  Slack.present
    (cursor_of Scenario.C1
       (snd (@pollChannel Scenario.posix Scenario.env_quiet Scenario.C1
               Scenario.world0))) = true
  /\ Slack.present
       (cursor_of Scenario.C1
          (snd (@poll Scenario.posix Scenario.env_quiet Scenario.world0)))
     = true.
Proof.
  destruct (@baseline_only_once Scenario.posix Scenario.env_quiet Scenario.C1
              Scenario.world0) as [Hchannel Hcycle].
  - left. reflexivity.
  - split; [exact Hchannel|apply Hcycle; reflexivity].
Defined.

Lemma new_session_recorded_witness :
  let w' := snd (@handleNewCommand Scenario.posix env_creates Scenario.C2
                   (lit "site") Scenario.world0) in
  spawned w' = 1%nat
  /\ files w'
     = Store.saveChannelData Scenario.C2
         {| Store.projectPath := lit "/srv/site";
            Store.cursorChatId := lit "chat-9";
            Store.createdAt := lit "2025-03-01T00:00:00.000Z" |}
         Scenario.files0.
Proof.
  apply (@new_session_recorded Scenario.posix env_creates Scenario.C2
           (lit "site") Scenario.world0 (Some (lit "300.0")));
    reflexivity.
Defined.

Lemma projects_in_order_witness :
  exists dirs rest,
    trace (snd (@handleProjectsCommand Scenario.env_quiet Scenario.C1
                  Scenario.world0))
    = [EvReaddir (lit "/srv");
       EvPost Scenario.C1 (JString (projects_reply (lit "/srv") dirs))]
      ++ rest
    /\ Permutation dirs [lit "b"; lit "a"]
    /\ StronglySorted (fun a b => code_unit_leb a b = true) dirs.
Proof.
  apply (@projects_in_order Scenario.env_quiet Scenario.C1 Scenario.world0
           [ {| dirent_name := lit "b"; isDirectory := true |};
             {| dirent_name := lit "a"; isDirectory := true |};
             {| dirent_name := lit ".hidden"; isDirectory := true |};
             {| dirent_name := lit "notes"; isDirectory := false |} ]);
    reflexivity.
Defined.

End BotFacts.
